(** * Service health checker: the probes, the orchestrator and the HTTP route

    A shallow embedding of [src/lib/healthChecks.ts] (the five probes and
    [runAllHealthChecks]) and of the [/api/health] route handlers [GET] and
    [POST], followed by the properties of the orchestration engine.

    Conventions of the embedding:
    - [process.env] is a finite map from variable names to strings;
    - the outside world (database server, S3, SES, the network) is a record
      of oracles, [World], fixed for one batch run;
    - an asynchronous call is described by the state its promise ends in
      ([Pending], [Fulfilled] or [Rejected]);
    - code under [try]/[catch] runs in a small state-and-exception monad. *)

From Stdlib Require Import ZArith Ascii String Lia Permutation.
From stdpp Require Import base gmap strings list pretty.

Set Warnings "-register-all".
Local Open Scope string_scope.
Local Open Scope Z_scope.
Local Open Scope list_scope.

(** ** JavaScript values *)

Module JS.

(** A JavaScript number as far as the program needs it: an integer or NaN.
    (Integers beyond 2^53 are rounded by the runtime; ports and counts stay
    far below.) *)
Inductive number : Type :=
| Num (z : Z)
| NaN.

(** Values that travel through [details], request bodies and responses. *)
Inductive json : Type :=
| JNull
| JBool (b : bool)
| JNum (n : number)
| JStr (s : string)
| JArr (items : list json)
| JObj (fields : list (string * json)).

(** A thrown value: an [Error] instance (with the optional [code] of a
    [NodeJS.ErrnoException]) or anything else. *)
Inductive thrown : Type :=
| ErrorObj (message : string) (code : option string)
| NonError (v : json).

(** The final state of a promise. *)
Inductive Promise (A : Type) : Type :=
| Pending
| Fulfilled (value : A)
| Rejected (reason : thrown).
Arguments Pending {A}.
Arguments Fulfilled {A} value.
Arguments Rejected {A} reason.

(** [error instanceof Error ? error.message : 'Unknown error'] *)
Definition errorMessage (e : thrown) : string :=
  match e with
  | ErrorObj m _ => m
  | NonError _ => "Unknown error"
  end.

(** Truthiness of [string | undefined]. *)
Definition truthy (v : option string) : bool :=
  match v with
  | Some s => negb (String.eqb s "")
  | None => false
  end.

(** Truthiness of [number | undefined]. *)
Definition truthy_num (v : option number) : bool :=
  match v with
  | Some (Num z) => negb (z =? 0)
  | Some NaN => false
  | None => false
  end.

(** Truthiness of a JSON value ([None] is [undefined]). *)
Definition truthy_json (v : option json) : bool :=
  match v with
  | None => false
  | Some JNull => false
  | Some (JBool b) => b
  | Some (JNum n) => truthy_num (Some n)
  | Some (JStr s) => truthy (Some s)
  | Some (JArr _) => true
  | Some (JObj _) => true
  end.

(** [v || d] where [d] is a string literal. *)
Definition or_else (v : option string) (d : string) : string :=
  match v with
  | Some s => if String.eqb s "" then d else s
  | None => d
  end.

(** [a || b] where both sides may be [undefined]. *)
Definition or_opt (a b : option string) : option string :=
  if truthy a then a else b.

(** [a || b] on numbers, [a] possibly [undefined]. *)
Definition or_num (a : option number) (b : number) : number :=
  match a with
  | Some n => if truthy_num a then n else b
  | None => b
  end.

(** Template-literal rendering of a number. *)
Definition show_number (n : number) : string :=
  match n with
  | Num z => pretty z
  | NaN => "NaN"
  end.

(** *** [parseInt] with the radix left out

    Leading white space is the ASCII one (tab, line feed, vertical tab,
    form feed, carriage return, space); the Unicode space characters that
    JavaScript also skips are not recognised. *)

Definition is_whitespace (a : ascii) : bool :=
  let n := nat_of_ascii a in
  ((9 <=? n)%nat && (n <=? 13)%nat) || (n =? 32)%nat.

Fixpoint skip_whitespace (s : string) : string :=
  match s with
  | String a rest => if is_whitespace a then skip_whitespace rest else s
  | EmptyString => s
  end.

Definition digit_value (radix : Z) (a : ascii) : option Z :=
  let n := Z.of_nat (nat_of_ascii a) in
  let v :=
    if (48 <=? n) && (n <=? 57) then Some (n - 48)
    else if (97 <=? n) && (n <=? 122) then Some (n - 87)
    else if (65 <=? n) && (n <=? 90) then Some (n - 55)
    else None in
  match v with
  | Some d => if d <? radix then Some d else None
  | None => None
  end.

(** Reads the longest prefix of digits; [acc] is [None] until a digit is seen. *)
Fixpoint parse_digits (radix : Z) (s : string) (acc : option Z) : option Z :=
  match s with
  | String a rest =>
      match digit_value radix a with
      | Some d => parse_digits radix rest (Some (default 0 acc * radix + d))
      | None => acc
      end
  | EmptyString => acc
  end.

Definition strip_sign (s : string) : Z * string :=
  match s with
  | String "-"%char rest => (-1, rest)
  | String "+"%char rest => (1, rest)
  | _ => (1, s)
  end.

Definition strip_hex_prefix (s : string) : Z * string :=
  match s with
  | String "0"%char (String "x"%char rest) => (16, rest)
  | String "0"%char (String "X"%char rest) => (16, rest)
  | _ => (10, s)
  end.

Definition parseInt (s : string) : number :=
  let '(sign, s1) := strip_sign (skip_whitespace s) in
  let '(radix, s2) := strip_hex_prefix s1 in
  match parse_digits radix s2 None with
  | Some v => Num (sign * v)
  | None => NaN
  end.

(** Property lookup on a parsed JSON object: the last binding of a key wins. *)
Fixpoint get_field (k : string) (fields : list (string * json)) : option json :=
  match fields with
  | [] => None
  | (k', v) :: rest =>
      match get_field k rest with
      | Some v' => Some v'
      | None => if String.eqb k k' then Some v else None
      end
  end.

End JS.
Import JS.


(** ** [src/lib/healthChecks.ts] *)

Module HealthChecks.

Inductive Status : Type := success | error.

(** [interface HealthCheckResult]; [details] is optional. *)
Record HealthCheckResult : Type := mkResult {
  service : string;
  status : Status;
  message : string;
  details : option (list (string * json));
}.

(** *** The outside world *)

(** The options object handed to [new Client(...)] of [pg]. *)
Record ClientConfig : Type := {
  host : option string;
  port : number;
  database : option string;
  user : option string;
  password : option string;
  ssl_rejectUnauthorized : bool;
}.

(** A row of [SELECT NOW() as current_time]. *)
Record Row : Type := { current_time : json }.

(** How the database behind a client configuration reacts: [None] in
    [on_connect] and [on_end] means the call resolves. *)
Record PgServer : Type := {
  on_connect : option thrown;
  on_query : string -> thrown + list Row;
  on_end : option thrown;
}.

Record IdentityVerificationAttributes : Type := {
  VerificationStatus : option string;
}.

Record GetIdentityVerificationAttributesResponse : Type := {
  VerificationAttributes : option (gmap string IdentityVerificationAttributes);
}.

(** What the event loop tries to run for one socket, in time order. *)
Inductive LoopEvent : Type :=
| TimerFires
| SocketConnect
| SocketError (message : string) (code : option string)
| SocketTimeout.

(** [createConnection] either throws at once or returns a socket whose
    callbacks the event loop later tries to run. *)
Inductive SocketBehaviour : Type :=
| ThrowsSync (e : thrown)
| Emits (events : list LoopEvent).

Record World : Type := {
  env : gmap string string;
  pg : ClientConfig -> PgServer;
  s3_head_bucket : string -> string -> option thrown;
  ses_get_identity_verification :
    string -> list string -> thrown + GetIdentityVerificationAttributesResponse;
  net_create_connection : string -> number -> Z -> SocketBehaviour;
}.

(** *** Resources and the calls made on them *)

(** The connection as the probe's own calls establish it: [Open] once
    [connect()] has resolved, [Closed] once [end()] has resolved.  What a
    rejected [connect()] leaves behind in the driver (a socket, a TLS
    session) is not tracked. *)
Inductive Conn : Type := NotConnected | Open | Closed.

Inductive Call : Type :=
| NewPgClient (cfg : ClientConfig)
| PgConnect
| PgQuery (sql : string)
| PgEnd
| NewS3Client (region : string)
| S3HeadBucket (bucket : string)
| NewSESClient (region : string)
| SESGetIdentityVerificationAttributes (identities : list string).

Record Resources : Type := {
  pg_conn : Conn;
  calls : list Call;
}.

Definition idle : Resources := {| pg_conn := NotConnected; calls := [] |}.

(** *** A state-and-exception monad for the bodies of the async probes *)

Definition M (A : Type) : Type := Resources -> (thrown + A) * Resources.

#[global] Instance M_ret : MRet M := fun A a r => (inr a, r).

#[global] Instance M_bind : MBind M := fun A B k m r =>
  match m r with
  | (inr a, r') => k a r'
  | (inl e, r') => (inl e, r')
  end.

Definition throw {A} (e : thrown) : M A := fun r => (inl e, r).

Definition try_catch {A} (body : M A) (handler : thrown -> M A) : M A :=
  fun r =>
    match body r with
    | (inr a, r') => (inr a, r')
    | (inl e, r') => handler e r'
    end.

Definition record_call (c : Call) : M unit :=
  fun r => (inr tt, {| pg_conn := pg_conn r; calls := calls r ++ [c] |}).

Definition set_conn (c : Conn) : M unit :=
  fun r => (inr tt, {| pg_conn := c; calls := calls r |}).

(** The promise of an [async] function whose body is [m], with the
    resources as the body leaves them. *)
Definition run_async {A} (m : M A) : Promise A * Resources :=
  match m idle with
  | (inr a, r) => (Fulfilled a, r)
  | (inl e, r) => (Rejected e, r)
  end.

(** *** The [pg] client *)

Definition new_Client (cfg : ClientConfig) : M ClientConfig :=
  record_call (NewPgClient cfg) ;; mret cfg.

Definition client_connect (w : World) (client : ClientConfig) : M unit :=
  record_call PgConnect ;;
  match on_connect (pg w client) with
  | None => set_conn Open
  | Some e => throw e
  end.

Definition client_query (w : World) (client : ClientConfig) (sql : string)
  : M (list Row) :=
  record_call (PgQuery sql) ;;
  match on_query (pg w client) sql with
  | inr rows => mret rows
  | inl e => throw e
  end.

Definition client_end (w : World) (client : ClientConfig) : M unit :=
  record_call PgEnd ;;
  match on_end (pg w client) with
  | None => set_conn Closed
  | Some e => throw e
  end.

(** [result.rows[0].current_time]: reading a property of [undefined] throws. *)
Definition first_current_time (rows : list Row) : M json :=
  match rows with
  | row :: _ => mret (current_time row)
  | [] => throw (ErrorObj
            "Cannot read properties of undefined (reading 'current_time')" None)
  end.

(** *** Database Health Check *)

(** The options object of [new Client({...})]. *)
Definition client_options (e : gmap string string) : ClientConfig :=
  {| host := e !! "DB_HOST";
     port := parseInt (or_else (e !! "DB_PORT") "5432");
     database := e !! "DB_NAME";
     user := e !! "DB_USERNAME";
     password := e !! "DB_PASSWORD";
     ssl_rejectUnauthorized := false |}.

Definition checkDatabase_body (w : World) : M (option HealthCheckResult) :=
  let e := env w in
  if negb (truthy (e !! "DB_HOST")) || negb (truthy (e !! "DB_NAME"))
     || negb (truthy (e !! "DB_USERNAME")) || negb (truthy (e !! "DB_PASSWORD"))
  then mret None
  else
    try_catch
      (client ← new_Client (client_options e);
       client_connect w client ;;
       result ← client_query w client "SELECT NOW() as current_time";
       client_end w client ;;
       currentTime ← first_current_time result;
       mret (Some {|
         service := "PostgreSQL Database";
         status := success;
         message := "Successfully connected to database";
         details := Some [("connected", JBool true);
                          ("responseTime", JStr "Fast");
                          ("currentTime", currentTime)] |}))
      (fun error => mret (Some {|
         service := "PostgreSQL Database";
         status := HealthChecks.error;
         message := "Database connection failed: " +:+ errorMessage error;
         details := Some [("connected", JBool false);
                          ("issue", JStr "Connection refused or authentication failed")] |})).

Definition checkDatabase (w : World)
  : Promise (option HealthCheckResult) * Resources :=
  run_async (checkDatabase_body w).

(** [const x = process.env.X; if (!x) throw new Error(msg)] *)
Definition require_set (v : option string) (msg : string) : M string :=
  match v with
  | Some x => if String.eqb x "" then throw (ErrorObj msg None) else mret x
  | None => throw (ErrorObj msg None)
  end.

(** *** S3 Health Check *)

Definition s3Client_send_HeadBucket (w : World) (region bucket : string) : M unit :=
  record_call (S3HeadBucket bucket);;
  match s3_head_bucket w region bucket with
  | None => mret tt
  | Some e => throw e
  end.

Definition checkS3_body (w : World) : M (option HealthCheckResult) :=
  let e := env w in
  if negb (truthy (e !! "S3_BUCKET_NAME"))
  then mret None
  else
    try_catch
      (let region := or_else (e !! "AWS_REGION") "us-east-1" in
       record_call (NewS3Client region);;
       bucketName ← require_set (e !! "S3_BUCKET_NAME")
                      "S3_BUCKET_NAME environment variable is not set";
       s3Client_send_HeadBucket w region bucketName;;
       mret (Some {|
         service := "AWS S3";
         status := success;
         message := "Successfully accessed S3 bucket";
         details := Some [("accessible", JBool true);
                          ("permissions", JStr "Valid")] |}))
      (fun error => mret (Some {|
         service := "AWS S3";
         status := HealthChecks.error;
         message := "S3 access failed: " +:+ errorMessage error;
         details := Some [("accessible", JBool false);
                          ("issue", JStr "Access denied or bucket not found")] |})).

Definition checkS3 (w : World)
  : Promise (option HealthCheckResult) * Resources :=
  run_async (checkS3_body w).

(** *** SES Health Check *)

Definition sesClient_send_GetIdentityVerificationAttributes
    (w : World) (region : string) (identities : list string)
  : M GetIdentityVerificationAttributesResponse :=
  record_call (SESGetIdentityVerificationAttributes identities);;
  match ses_get_identity_verification w region identities with
  | inr result => mret result
  | inl e => throw e
  end.

Definition checkSES_body (w : World) : M (option HealthCheckResult) :=
  let e := env w in
  if negb (truthy (e !! "SES_FROM_EMAIL"))
  then mret None
  else
    try_catch
      (let region := or_else (e !! "AWS_REGION") "us-east-1" in
       record_call (NewSESClient region);;
       fromEmail ← require_set (e !! "SES_FROM_EMAIL")
                     "SES_FROM_EMAIL environment variable is not set";
       result ← sesClient_send_GetIdentityVerificationAttributes w region [fromEmail];
       let verificationStatus : option string :=
         attrs ← VerificationAttributes result;
         identity ← attrs !! fromEmail;
         VerificationStatus identity in
       mret (Some {|
         service := "AWS SES";
         status := success;
         message := "Successfully connected to SES";
         details := Some [("accessible", JBool true);
                          ("emailVerified",
                           JBool (bool_decide (verificationStatus = Some "Success")))] |}))
      (fun error => mret (Some {|
         service := "AWS SES";
         status := HealthChecks.error;
         message := "SES access failed: " +:+ errorMessage error;
         details := Some [("accessible", JBool false);
                          ("issue", JStr "Access denied or email not verified")] |})).

Definition checkSES (w : World)
  : Promise (option HealthCheckResult) * Resources :=
  run_async (checkSES_body w).

(** *** DNS/Port Connectivity Health Check *)

Inductive NetCall : Type :=
| CreateConnection (host : string) (port : number) (timeout : Z)
| SetTimeout (ms : Z)
| ClearTimeout
| SocketDestroy
| Resolve (value : HealthCheckResult).

(** The promise built by [new Promise((resolve) => ...)] together with the
    timer and the socket its executor owns, and the calls made so far. *)
Record Attempt : Type := {
  timer_armed : bool;
  socket_destroyed : bool;
  promise : Promise (option HealthCheckResult);
  net_calls : list NetCall;
}.

Definition clearTimeout (a : Attempt) : Attempt :=
  {| timer_armed := false;
     socket_destroyed := socket_destroyed a;
     promise := promise a;
     net_calls := net_calls a ++ [ClearTimeout] |}.

Definition socket_destroy (a : Attempt) : Attempt :=
  {| timer_armed := timer_armed a;
     socket_destroyed := true;
     promise := promise a;
     net_calls := net_calls a ++ [SocketDestroy] |}.

(** [resolve(value)]: only the first call settles the promise. *)
Definition resolve (value : HealthCheckResult) (a : Attempt) : Attempt :=
  {| timer_armed := timer_armed a;
     socket_destroyed := socket_destroyed a;
     promise := match promise a with
                | Pending => Fulfilled (Some value)
                | settled => settled
                end;
     net_calls := net_calls a ++ [Resolve value] |}.

Definition timeout : Z := 5000.

Definition timeout_result (testHost : string) (testPort : number) : HealthCheckResult :=
  {| service := "DNS/Port Connectivity";
     status := error;
     message := "Connection timeout to " +:+ testHost +:+ ":" +:+ show_number testPort;
     details := Some [("hostname", JStr testHost);
                      ("port", JNum testPort);
                      ("timeout", JStr (pretty timeout +:+ "ms"));
                      ("accessible", JBool false)] |}.

Definition connect_result (testHost : string) (testPort : number) : HealthCheckResult :=
  {| service := "DNS/Port Connectivity";
     status := success;
     message := "Successfully connected to " +:+ testHost +:+ ":" +:+ show_number testPort;
     details := Some [("hostname", JStr testHost);
                      ("port", JNum testPort);
                      ("accessible", JBool true);
                      ("responseTime", JStr "Fast")] |}.

Definition error_result (testHost : string) (testPort : number)
    (error_message : string) (error_code : option string) : HealthCheckResult :=
  {| service := "DNS/Port Connectivity";
     status := error;
     message := "Failed to connect to " +:+ testHost +:+ ":" +:+ show_number testPort
                +:+ ": " +:+ error_message;
     details := Some [("hostname", JStr testHost);
                      ("port", JNum testPort);
                      ("accessible", JBool false);
                      ("error", JStr (or_else error_code "Unknown error"))] |}.

(** The three callbacks registered by the executor. *)
Definition on_timer (testHost : string) (testPort : number) (a : Attempt) : Attempt :=
  resolve (timeout_result testHost testPort) (socket_destroy a).

Definition on_connect_event (testHost : string) (testPort : number) (a : Attempt) : Attempt :=
  resolve (connect_result testHost testPort) (socket_destroy (clearTimeout a)).

Definition on_error_event (testHost : string) (testPort : number)
    (error_message : string) (error_code : option string) (a : Attempt) : Attempt :=
  resolve (error_result testHost testPort error_message error_code)
          (socket_destroy (clearTimeout a)).

(** One turn of the event loop: a timer callback runs only while the timer
    is armed (and disarms it), a socket callback only while the socket is
    not destroyed; ['timeout'] of the socket has no listener.  [None]: the
    runtime has nothing to run for this event. *)
Definition deliver (testHost : string) (testPort : number)
    (ev : LoopEvent) (a : Attempt) : option Attempt :=
  match ev with
  | TimerFires =>
      if timer_armed a
      then Some (on_timer testHost testPort
                   {| timer_armed := false;
                      socket_destroyed := socket_destroyed a;
                      promise := promise a;
                      net_calls := net_calls a |})
      else None
  | SocketConnect =>
      if socket_destroyed a then None
      else Some (on_connect_event testHost testPort a)
  | SocketError error_message error_code =>
      if socket_destroyed a then None
      else Some (on_error_event testHost testPort error_message error_code a)
  | SocketTimeout =>
      if socket_destroyed a then None else Some a
  end.

Fixpoint event_loop (testHost : string) (testPort : number)
    (events : list LoopEvent) (a : Attempt) : Attempt :=
  match events with
  | [] => a
  | ev :: rest =>
      event_loop testHost testPort rest
        (default a (deliver testHost testPort ev a))
  end.

(** The skip test at the top of [checkDNSPort]. *)
Definition dns_skip (w : World) (hostname : option string) (port : option number) : bool :=
  negb (truthy hostname) && negb (truthy_num port)
  && negb (truthy (env w !! "DNS_CHECK_HOST"))
  && negb (truthy (env w !! "DNS_CHECK_PORT")).

(** [hostname || process.env.DNS_CHECK_HOST || 'google.com'] *)
Definition dns_testHost (w : World) (hostname : option string) : string :=
  or_else (or_opt hostname (env w !! "DNS_CHECK_HOST")) "google.com".

(** [port || parseInt(process.env.DNS_CHECK_PORT || '80')] *)
Definition dns_testPort (w : World) (port : option number) : number :=
  or_num port (parseInt (or_else (env w !! "DNS_CHECK_PORT") "80")).

(** A timer that is still armed fires in the end, hence the final
    [TimerFires] after the events chosen by the world. *)
Definition checkDNSPort (w : World) (hostname : option string) (port : option number)
  : Attempt :=
  if dns_skip w hostname port
  then {| timer_armed := false; socket_destroyed := false;
          promise := Fulfilled None; net_calls := [] |}
  else
    let testHost := dns_testHost w hostname in
    let testPort := dns_testPort w port in
    match net_create_connection w testHost testPort timeout with
    | ThrowsSync err =>
        {| timer_armed := false; socket_destroyed := false;
           promise := Rejected err;
           net_calls := [CreateConnection testHost testPort timeout] |}
    | Emits events =>
        event_loop testHost testPort (events ++ [TimerFires])
          {| timer_armed := true; socket_destroyed := false;
             promise := Pending;
             net_calls := [CreateConnection testHost testPort timeout;
                           SetTimeout timeout] |}
    end.

(** *** Port Health Check *)

Definition checkPort (w : World) : HealthCheckResult :=
  let port := or_else (env w !! "PORT") "3000" in
  {| service := "Application Port";
     status := success;
     message := "Application is running on port " +:+ port;
     details := Some [("running", JBool true);
                      ("environment", JStr (or_else (env w !! "ENV") "development"))] |}.

(** *** Run all health checks *)

Inductive PromiseSettledResult (A : Type) : Type :=
| PromiseFulfilledResult (value : A)
| PromiseRejectedResult (reason : thrown).
Arguments PromiseFulfilledResult {A} value.
Arguments PromiseRejectedResult {A} reason.

(** [Promise.allSettled]: every input promise writes its outcome into the
    slot of its own index at the moment it settles; [completion] lists the
    indices in the order in which the promises settle.  The combined promise
    is fulfilled once every slot is filled. *)
Definition settle_slot {A} (promises : list (Promise A))
    (slots : list (option (PromiseSettledResult A))) (i : nat)
  : list (option (PromiseSettledResult A)) :=
  match promises !! i with
  | Some (Fulfilled value) => <[i := Some (PromiseFulfilledResult value)]> slots
  | Some (Rejected reason) => <[i := Some (PromiseRejectedResult reason)]> slots
  | Some Pending => slots
  | None => slots
  end.

Definition allSettled {A} (completion : list nat) (promises : list (Promise A))
  : Promise (list (PromiseSettledResult A)) :=
  let slots := foldl (settle_slot promises)
                     (replicate (length promises) None) completion in
  match mapM id slots with
  | Some results => Fulfilled results
  | None => Pending
  end.

Definition services : list string :=
  ["Application Port"; "PostgreSQL Database"; "AWS S3"; "AWS SES";
   "DNS/Port Connectivity"].

(** The object pushed for a rejected promise; it has no [details].  The
    array literal of [runAllHealthChecks] has five promises, so [index] is
    always below the length of [services]. *)
Definition rejected_result (index : nat) (reason : thrown) : HealthCheckResult :=
  {| service := default "" (services !! index);
     status := error;
     message := "Health check failed: " +:+ errorMessage reason;
     details := None |}.

(** One call of the [forEach] callback. *)
Definition process_result (processedResults : list HealthCheckResult)
    (entry : nat * PromiseSettledResult (option HealthCheckResult))
  : list HealthCheckResult :=
  let '(index, result) := entry in
  match result with
  | PromiseFulfilledResult (Some value) => processedResults ++ [value]
  | PromiseFulfilledResult None => processedResults
  | PromiseRejectedResult reason =>
      processedResults ++ [rejected_result index reason]
  end.

Definition process_results
    (results : list (PromiseSettledResult (option HealthCheckResult)))
  : list HealthCheckResult :=
  foldl process_result [] (imap (fun index result => (index, result)) results).

(** The five promises handed to [Promise.allSettled], in the order of the
    array literal. *)
Definition probes (w : World) : list (Promise (option HealthCheckResult)) :=
  [ Fulfilled (Some (checkPort w));
    fst (checkDatabase w);
    fst (checkS3 w);
    fst (checkSES w);
    promise (checkDNSPort w None None) ].

(** The orchestrator over an arbitrary array of promises. *)
Definition runAllHealthChecks_with (completion : list nat)
    (promises : list (Promise (option HealthCheckResult)))
  : Promise (list HealthCheckResult) :=
  match allSettled completion promises with
  | Fulfilled results => Fulfilled (process_results results)
  | Pending => Pending
  | Rejected reason => Rejected reason
  end.

Definition runAllHealthChecks (w : World) (completion : list nat)
  : Promise (list HealthCheckResult) :=
  runAllHealthChecks_with completion (probes w).

End HealthChecks.

(** ** The route handlers of [/api/health] *)

Module Route.
Import HealthChecks.

(** What [NextResponse.json(body, { status, headers })] is given. *)
Record Response : Type := {
  http_status : Z;
  headers : list (string * string);
  body : json;
}.

Definition status_string (s : Status) : string :=
  match s with
  | success => "success"
  | error => "error"
  end.

(** JSON serialisation of a result: an absent [details] leaves no key. *)
Definition json_of_result (r : HealthCheckResult) : json :=
  JObj ([("service", JStr (service r));
         ("status", JStr (status_string (status r)));
         ("message", JStr (message r))]
        ++ match details r with
           | Some d => [("details", JObj d)]
           | None => []
           end).

Definition has_status (s : Status) (r : HealthCheckResult) : bool :=
  match status r, s with
  | success, success => true
  | error, error => true
  | _, _ => false
  end.

Definition no_cache_headers : list (string * string) :=
  [("Cache-Control", "no-cache, no-store, must-revalidate");
   ("Pragma", "no-cache");
   ("Expires", "0")].

Definition count (n : nat) : json := JNum (Num (Z.of_nat n)).

(** The [try] part of [GET] after the [await]. *)
Definition GET_report (healthCheckResults : list HealthCheckResult) (now : string)
  : Response :=
  let hasErrors := existsb (has_status error) healthCheckResults in
  let overallStatus := if hasErrors then "unhealthy" else "healthy" in
  let httpStatus := if hasErrors then 503 else 200 in
  let response := JObj
    [("status", JStr overallStatus);
     ("timestamp", JStr now);
     ("checks", JArr (map json_of_result healthCheckResults));
     ("summary", JObj
        [("total", count (length healthCheckResults));
         ("passed", count (length (List.filter (has_status success) healthCheckResults)));
         ("failed", count (length (List.filter (has_status error) healthCheckResults)))])] in
  {| http_status := httpStatus; headers := no_cache_headers; body := response |}.

(** The [catch] part of [GET]. *)
Definition GET_failure (err : thrown) (now : string) : Response :=
  {| http_status := 500;
     headers := no_cache_headers;
     body := JObj [("status", JStr "error");
                   ("message", JStr "Health check system failure");
                   ("error", JStr (errorMessage err));
                   ("timestamp", JStr now)] |}.

(** [now] is [new Date().toISOString()]. *)
Definition GET (w : World) (completion : list nat) (now : string) : Promise Response :=
  match runAllHealthChecks w completion with
  | Fulfilled healthCheckResults => Fulfilled (GET_report healthCheckResults now)
  | Rejected err => Fulfilled (GET_failure err now)
  | Pending => Pending
  end.

(** [const { service } = body]: destructuring [null] throws, a primitive
    or an array has no such property. *)
Definition destructure_service (body : json) : thrown + option json :=
  match body with
  | JNull => inl (ErrorObj
      "Cannot destructure property 'service' of 'body' as it is null." None)
  | JObj fields => inr (get_field "service" fields)
  | _ => inr None
  end.

Definition POST_not_implemented (service : json) : Response :=
  {| http_status := 501;
     headers := [];
     body := JObj
       [("message", JStr
          "Individual service checks not implemented yet. Use GET /api/health for all checks.");
        ("requestedService", service)] |}.

Definition POST_report (healthCheckResults : list HealthCheckResult) (now : string)
  : Response :=
  let hasErrors := existsb (has_status error) healthCheckResults in
  {| http_status := if hasErrors then 503 else 200;
     headers := [];
     body := JObj
       [("status", JStr (if hasErrors then "unhealthy" else "healthy"));
        ("timestamp", JStr now);
        ("checks", JArr (map json_of_result healthCheckResults))] |}.

(** The [catch] part of [POST]. *)
Definition POST_invalid (err : thrown) (now : string) : Response :=
  {| http_status := 400;
     headers := [];
     body := JObj [("status", JStr "error");
                   ("message", JStr "Invalid request");
                   ("error", JStr (errorMessage err));
                   ("timestamp", JStr now)] |}.

(** [request_json] is what [await request.json()] gives: the parsed body,
    or the thrown parse error. *)
Definition POST (w : World) (completion : list nat) (now : string)
    (request_json : thrown + json) : Promise Response :=
  match request_json with
  | inl err => Fulfilled (POST_invalid err now)
  | inr body =>
      match destructure_service body with
      | inl err => Fulfilled (POST_invalid err now)
      | inr service =>
          if truthy_json service
          then Fulfilled (POST_not_implemented (default JNull service))
          else
            match runAllHealthChecks w completion with
            | Fulfilled healthCheckResults =>
                Fulfilled (POST_report healthCheckResults now)
            | Rejected err => Fulfilled (POST_invalid err now)
            | Pending => Pending
            end
      end
  end.

(** The keys of a JSON object, in order. *)
Definition object_keys (v : json) : list string :=
  match v with
  | JObj fields => map fst fields
  | _ => []
  end.

End Route.

(** ** Concrete worlds *)

Module Scenarios.
Import HealthChecks.

(** A database that accepts every connection and answers the time query. *)
Definition pg_up : ClientConfig -> PgServer := fun _ =>
  {| on_connect := None;
     on_query := fun _ => inr [ {| current_time := JStr "2025-01-01T00:00:00.000Z" |} ];
     on_end := None |}.

(** A database that refuses the connection. *)
Definition pg_refusing : ClientConfig -> PgServer := fun _ =>
  {| on_connect := Some (ErrorObj "connect ECONNREFUSED 10.0.0.9:5432" (Some "ECONNREFUSED"));
     on_query := fun _ => inl (ErrorObj "not connected" None);
     on_end := None |}.

(** A database that accepts the connection and then fails the query. *)
Definition pg_query_fault : ClientConfig -> PgServer := fun _ =>
  {| on_connect := None;
     on_query := fun _ => inl (ErrorObj "canceling statement due to statement timeout" (Some "57014"));
     on_end := None |}.

(** [net.createConnection] as Node does it: a port that is not an integer
    of 0..65535 makes the call throw at once; otherwise the socket emits the
    given events. *)
Definition node_net (events : list LoopEvent) : string -> number -> Z -> SocketBehaviour :=
  fun _ port _ =>
    match port with
    | Num z =>
        if (0 <=? z) && (z <? 65536) then Emits events
        else ThrowsSync (ErrorObj "Port should be >= 0 and < 65536." (Some "ERR_SOCKET_BAD_PORT"))
    | NaN => ThrowsSync (ErrorObj "Port should be >= 0 and < 65536." (Some "ERR_SOCKET_BAD_PORT"))
    end.

Definition world (e : gmap string string) (db : ClientConfig -> PgServer)
    (events : list LoopEvent) : World :=
  {| env := e;
     pg := db;
     s3_head_bucket := fun _ _ => None;
     ses_get_identity_verification := fun _ _ =>
       inr {| VerificationAttributes := None |};
     net_create_connection := node_net events |}.

Definition db_env : gmap string string :=
  list_to_map [("PORT", "8080"); ("DB_HOST", "10.0.0.9"); ("DB_NAME", "app");
               ("DB_USERNAME", "svc"); ("DB_PASSWORD", "secret")].

(** Only the listen port is configured. *)
Definition port_only : World :=
  world (list_to_map [("PORT", "8080")]) pg_up [SocketConnect].

(** Database variables set, the server refuses. *)
Definition db_unreachable : World := world db_env pg_refusing [SocketConnect].

(** Database variables set, the query fails after the connection opened. *)
Definition db_query_fails : World := world db_env pg_query_fault [SocketConnect].

(** Only the reachability host is configured; the port is left out. *)
Definition dns_host_only : World :=
  world (list_to_map [("DNS_CHECK_HOST", "example.com")]) pg_up [SocketConnect].

(** The reachability port is not a number. *)
Definition dns_bad_port : World :=
  world (list_to_map [("DNS_CHECK_PORT", "abc")]) pg_up [SocketConnect].

(** Everything configured; the network connects only after the timer. *)
Definition all_configured : World :=
  world (list_to_map [("DB_HOST", "10.0.0.9"); ("DB_NAME", "app");
                      ("DB_USERNAME", "svc"); ("DB_PASSWORD", "secret");
                      ("S3_BUCKET_NAME", "assets"); ("SES_FROM_EMAIL", "ops@example.com");
                      ("DNS_CHECK_HOST", "example.com"); ("DNS_CHECK_PORT", "443")])
        pg_refusing [SocketTimeout; TimerFires; SocketConnect].

(** Database refusing and a reachability port that is not a number. *)
Definition db_down_bad_port : World :=
  world (<["DNS_CHECK_PORT" := "abc"]> db_env) pg_refusing [SocketConnect].

(** The database host is set, the password (and the rest) is not. *)
Definition db_partial : World :=
  world (list_to_map [("DB_HOST", "10.0.0.9"); ("DB_PASSWORD", "")]) pg_up [SocketConnect].

End Scenarios.

(** ** Notions used to state the properties *)

Module Props.
Import HealthChecks Route.

(** The settled record of a promise that is no longer pending. *)
Definition settled_of {A} (p : Promise A) : option (PromiseSettledResult A) :=
  match p with
  | Fulfilled value => Some (PromiseFulfilledResult value)
  | Rejected reason => Some (PromiseRejectedResult reason)
  | Pending => None
  end.

(** What one settled probe adds to [processedResults]. *)
Definition contribution (index : nat)
    (result : PromiseSettledResult (option HealthCheckResult))
  : list HealthCheckResult :=
  process_result [] (index, result).

(** The indices of the five promises, in declaration order. *)
Definition declaration_order : list nat := seq 0 5.

(** A variable counts as set when the gate's own test [!process.env.X]
    fails: it is defined and not the empty string. *)
Definition is_set (e : gmap string string) (k : string) : Prop :=
  truthy (e !! k) = true.

Definition is_absent (e : gmap string string) (k : string) : Prop :=
  truthy (e !! k) = false.

(** The values handed to [resolve], in call order. *)
Definition resolved_values (cs : list NetCall) : list HealthCheckResult :=
  omap (fun c => match c with Resolve value => Some value | _ => None end) cs.

(** The results pushed by the [forEach] loop for the settled records
    [results], the first of which has index [k]. *)
Fixpoint collect (k : nat)
    (results : list (PromiseSettledResult (option HealthCheckResult)))
  : list HealthCheckResult :=
  match results with
  | [] => []
  | result :: rest => contribution k result ++ collect (S k) rest
  end.

(** The result a single event produces when its callback runs; the
    socket's own ['timeout'] event has no callback. *)
Definition outcome (testHost : string) (testPort : number) (ev : LoopEvent)
  : option HealthCheckResult :=
  match ev with
  | TimerFires => Some (timeout_result testHost testPort)
  | SocketConnect => Some (connect_result testHost testPort)
  | SocketError m c => Some (error_result testHost testPort m c)
  | SocketTimeout => None
  end.

(** The result of the first event that has a callback; the timer when no
    such event comes. *)
Fixpoint winner (testHost : string) (testPort : number) (events : list LoopEvent)
  : HealthCheckResult :=
  match events with
  | [] => timeout_result testHost testPort
  | ev :: rest =>
      match outcome testHost testPort ev with
      | Some r => r
      | None => winner testHost testPort rest
      end
  end.

(** The attempt right after the executor has run: timer armed, socket
    alive, nothing resolved. *)
Definition racing (a : Attempt) : Prop :=
  timer_armed a = true ∧ socket_destroyed a = false ∧ promise a = Pending
  ∧ resolved_values (net_calls a) = [].

(** The attempt after one callback has run with result [r]: timer off,
    socket destroyed, [resolve] called once. *)
Definition finished (r : HealthCheckResult) (a : Attempt) : Prop :=
  timer_armed a = false ∧ socket_destroyed a = true
  ∧ promise a = Fulfilled (Some r)
  ∧ resolved_values (net_calls a) = [r].

(** One of the three outcomes produced the single result of the attempt. *)
Definition single_outcome (testHost : string) (testPort : number) (a : Attempt) : Prop :=
  ∃ r, finished r a
       ∧ (r = connect_result testHost testPort
          ∨ r = timeout_result testHost testPort
          ∨ ∃ m c, r = error_result testHost testPort m c).

(** The declared names of the probes that did not skip, in declaration
    order. *)
Definition reported_names (promises : list (Promise (option HealthCheckResult)))
  : list string :=
  concat (zip_with (fun name p => match p with
                                   | Fulfilled None => []
                                   | _ => [name]
                                   end) services promises).

(** The four probes that have a gate. *)
Inductive Probe : Type := Database | ObjectStore | Email | Reachability.

Definition probe_name (p : Probe) : string :=
  match p with
  | Database => "PostgreSQL Database"
  | ObjectStore => "AWS S3"
  | Email => "AWS SES"
  | Reachability => "DNS/Port Connectivity"
  end.

(** The variables each gate tests. *)
Definition gate_fields (p : Probe) : list string :=
  match p with
  | Database => ["DB_HOST"; "DB_NAME"; "DB_USERNAME"; "DB_PASSWORD"]
  | ObjectStore => ["S3_BUCKET_NAME"]
  | Email => ["SES_FROM_EMAIL"]
  | Reachability => ["DNS_CHECK_HOST"; "DNS_CHECK_PORT"]
  end.

(** The probe, as the batch calls it, was skipped: it returned [null] and
    touched nothing. *)
Definition probe_skipped (p : Probe) (w : World) : Prop :=
  match p with
  | Database => checkDatabase w = (Fulfilled None, idle)
  | ObjectStore => checkS3 w = (Fulfilled None, idle)
  | Email => checkSES w = (Fulfilled None, idle)
  | Reachability =>
      promise (checkDNSPort w None None) = Fulfilled None
      ∧ net_calls (checkDNSPort w None None) = []
  end.

(** All-or-nothing: one absent field is enough to skip. *)
Definition some_field_absent (p : Probe) (w : World) : Prop :=
  ∃ k, k ∈ gate_fields p ∧ is_absent (env w) k.

Definition every_field_absent (p : Probe) (w : World) : Prop :=
  ∀ k, k ∈ gate_fields p → is_absent (env w) k.

(** When the gate of the code skips: the reachability probe only when none
    of its fields is set, the other probes when one is absent. *)
Definition gate_skips (p : Probe) (w : World) : Prop :=
  match p with
  | Reachability => every_field_absent p w
  | _ => some_field_absent p w
  end.

End Props.

(** ** The earlier [healthChecks.ts]: no gates, no reachability probe *)

Module Legacy.
Import HealthChecks.

(** Database Health Check: the body runs whatever the configuration is. *)
Definition checkDatabase_body (w : World) : M HealthCheckResult :=
  let e := env w in
  try_catch
    (client ← new_Client (client_options e);
     client_connect w client;;
     result ← client_query w client "SELECT NOW() as current_time";
     client_end w client;;
     currentTime ← first_current_time result;
     mret {|
       service := "PostgreSQL Database";
       status := success;
       message := "Successfully connected to database";
       details := Some [("connected", JBool true);
                        ("responseTime", JStr "Fast");
                        ("currentTime", currentTime)] |})
    (fun error => mret {|
       service := "PostgreSQL Database";
       status := HealthChecks.error;
       message := "Database connection failed: " +:+ errorMessage error;
       details := Some [("connected", JBool false);
                        ("issue", JStr "Connection refused or authentication failed")] |}).

Definition checkDatabase (w : World) : Promise HealthCheckResult * Resources :=
  run_async (checkDatabase_body w).

(** S3 Health Check *)
Definition checkS3_body (w : World) : M HealthCheckResult :=
  let e := env w in
  try_catch
    (let region := or_else (e !! "AWS_REGION") "us-east-1" in
     record_call (NewS3Client region);;
     bucketName ← require_set (e !! "S3_BUCKET_NAME")
                    "S3_BUCKET_NAME environment variable is not set";
     s3Client_send_HeadBucket w region bucketName;;
     mret {|
       service := "AWS S3";
       status := success;
       message := "Successfully accessed S3 bucket";
       details := Some [("accessible", JBool true);
                        ("permissions", JStr "Valid")] |})
    (fun error => mret {|
       service := "AWS S3";
       status := HealthChecks.error;
       message := "S3 access failed: " +:+ errorMessage error;
       details := Some [("accessible", JBool false);
                        ("issue", JStr "Access denied or bucket not found")] |}).

Definition checkS3 (w : World) : Promise HealthCheckResult * Resources :=
  run_async (checkS3_body w).

(** SES Health Check *)
Definition checkSES_body (w : World) : M HealthCheckResult :=
  let e := env w in
  try_catch
    (let region := or_else (e !! "AWS_REGION") "us-east-1" in
     record_call (NewSESClient region);;
     fromEmail ← require_set (e !! "SES_FROM_EMAIL")
                   "SES_FROM_EMAIL environment variable is not set";
     result ← sesClient_send_GetIdentityVerificationAttributes w region [fromEmail];
     let verificationStatus : option string :=
       attrs ← VerificationAttributes result;
       identity ← attrs !! fromEmail;
       VerificationStatus identity in
     mret {|
       service := "AWS SES";
       status := success;
       message := "Successfully connected to SES";
       details := Some [("accessible", JBool true);
                        ("emailVerified",
                         JBool (bool_decide (verificationStatus = Some "Success")))] |})
    (fun error => mret {|
       service := "AWS SES";
       status := HealthChecks.error;
       message := "SES access failed: " +:+ errorMessage error;
       details := Some [("accessible", JBool false);
                        ("issue", JStr "Access denied or email not verified")] |}).

Definition checkSES (w : World) : Promise HealthCheckResult * Resources :=
  run_async (checkSES_body w).

(** Port Health Check: the same text as the current [checkPort]. *)
Definition checkPort (w : World) : HealthCheckResult :=
  let port := or_else (env w !! "PORT") "3000" in
  {| service := "Application Port";
     status := success;
     message := "Application is running on port " +:+ port;
     details := Some [("running", JBool true);
                      ("environment", JStr (or_else (env w !! "ENV") "development"))] |}.

Definition services : list string :=
  ["Application Port"; "PostgreSQL Database"; "AWS S3"; "AWS SES"].

(** The callback of [results.map]; the array has four promises, so
    [index] is always below the length of [services]. *)
Definition map_result (index : nat) (result : PromiseSettledResult HealthCheckResult)
  : HealthCheckResult :=
  match result with
  | PromiseFulfilledResult value => value
  | PromiseRejectedResult reason =>
      {| service := default "" (services !! index);
         status := error;
         message := "Health check failed: " +:+ errorMessage reason;
         details := None |}
  end.

Definition probes (w : World) : list (Promise HealthCheckResult) :=
  [ Fulfilled (checkPort w);
    fst (checkDatabase w);
    fst (checkS3 w);
    fst (checkSES w) ].

(** Run all health checks *)
Definition runAllHealthChecks (w : World) (completion : list nat)
  : Promise (list HealthCheckResult) :=
  match allSettled completion (probes w) with
  | Fulfilled results => Fulfilled (imap map_result results)
  | Pending => Pending
  | Rejected reason => Rejected reason
  end.

End Legacy.

(** ** The dashboard page *)

Module Dashboard.

(** [getStatusColor] *)
Definition getStatusColor (status : string) : string :=
  if String.eqb status "success" || String.eqb status "healthy"
  then "text-green-600 bg-green-50 border-green-200"
  else if String.eqb status "error" || String.eqb status "unhealthy"
  then "text-red-600 bg-red-50 border-red-200"
  else "text-yellow-600 bg-yellow-50 border-yellow-200".

(** [getStatusIcon] *)
Definition getStatusIcon (status : string) : string :=
  if String.eqb status "success" || String.eqb status "healthy"
  then "✅"
  else if String.eqb status "error" || String.eqb status "unhealthy"
  then "❌"
  else "⚠️".

End Dashboard.

(** ** More concrete worlds *)

Module Cases.
Import HealthChecks.

(** A database that answers the query with no rows. *)
Definition pg_no_rows : ClientConfig -> PgServer := fun _ =>
  {| on_connect := None; on_query := fun _ => inr []; on_end := None |}.

Definition db_empty_rows : World :=
  Scenarios.world Scenarios.db_env pg_no_rows [SocketConnect].

(** S3 denies access; SES knows the sender as still pending. *)
Definition aws_env : gmap string string :=
  list_to_map [("S3_BUCKET_NAME", "assets"); ("SES_FROM_EMAIL", "ops@example.com");
               ("AWS_REGION", "eu-west-1")].

Definition aws_denied_pending : World :=
  {| env := aws_env;
     pg := Scenarios.pg_up;
     s3_head_bucket := fun _ _ => Some (ErrorObj "Forbidden" None);
     ses_get_identity_verification := fun _ _ =>
       inr {| VerificationAttributes :=
                Some {[ "ops@example.com" :=
                          {| VerificationStatus := Some "Pending" |} ]} |};
     net_create_connection := Scenarios.node_net [SocketConnect] |}.

(** Nothing about reachability in the environment; the network refuses. *)
Definition net_refusing : World :=
  Scenarios.world (list_to_map [("PORT", "8080")]) Scenarios.pg_up
    [SocketError "connect ECONNREFUSED 127.0.0.1:80" (Some "ECONNREFUSED")].

End Cases.

(** ** Further notions used to state properties *)

Module Behaviour.
Import HealthChecks Route Props.

(** The calls of one full database check, in order. *)
Definition pg_protocol (cfg : ClientConfig) : list Call :=
  [NewPgClient cfg; PgConnect; PgQuery "SELECT NOW() as current_time"; PgEnd].

(** The calls that release the timer and the socket on the path of [ev]:
    the timer callback has no timer left to clear. *)
Definition cleanup (ev : LoopEvent) : list NetCall :=
  match ev with
  | TimerFires => [SocketDestroy]
  | _ => [ClearTimeout; SocketDestroy]
  end.

(** The first event that has a callback; the timer when there is none. *)
Fixpoint first_callback (events : list LoopEvent) : LoopEvent :=
  match events with
  | [] => TimerFires
  | SocketTimeout :: rest => first_callback rest
  | ev :: _ => ev
  end.

(** The fields of a JSON object. *)
Definition fields_of (v : json) : list (string * json) :=
  match v with
  | JObj fields => fields
  | _ => []
  end.

(** None of the four gated probes is configured. *)
Definition nothing_configured (w : World) : Prop :=
  ∀ p, every_field_absent p w.

End Behaviour.

Import HealthChecks Route Props.

(** ** [Promise.allSettled] fills the slots by index *)

Section AllSettled.
Context {A : Type}.
Implicit Types (promises : list (Promise A)).
Implicit Types (slots : list (option (PromiseSettledResult A))).
Implicit Types (completion : list nat).

Lemma settle_slot_length promises slots i :
  length (settle_slot promises slots i) = length slots.
Proof.
  unfold settle_slot.
  destruct (promises !! i) as [[]|]; rewrite ?length_insert; reflexivity.
Qed.

Lemma settle_slot_lookup promises slots i j :
  (j < length slots)%nat →
  settle_slot promises slots i !! j =
    if decide (i = j)
    then match promises !! i ≫= settled_of with
         | Some s => Some (Some s)
         | None => slots !! j
         end
    else slots !! j.
Proof.
  intros Hj. unfold settle_slot.
  destruct (decide (i = j)) as [->|Hne].
  - destruct (promises !! j) as [[]|]; simpl;
      rewrite ?list_lookup_insert_eq by assumption; reflexivity.
  - destruct (promises !! i) as [[]|]; simpl;
      rewrite ?list_lookup_insert_ne by assumption; reflexivity.
Qed.

Lemma foldl_settle_length promises completion : ∀ slots,
  length (foldl (settle_slot promises) slots completion) = length slots.
Proof.
  induction completion as [|i completion IH]; intros slots; simpl.
  - reflexivity.
  - rewrite IH. apply settle_slot_length.
Qed.

(** The slot of index [j] after all the promises listed in [completion]
    have settled. *)
Lemma foldl_settle_lookup promises completion : ∀ slots j,
  (j < length slots)%nat →
  foldl (settle_slot promises) slots completion !! j =
    if decide (j ∈ completion)
    then match promises !! j ≫= settled_of with
         | Some s => Some (Some s)
         | None => slots !! j
         end
    else slots !! j.
Proof.
  induction completion as [|i completion IH]; intros slots j Hj; cbn [foldl].
  - destruct (decide (j ∈ [])) as [Hin|]; [|reflexivity].
    apply not_elem_of_nil in Hin. contradiction.
  - rewrite IH by (rewrite settle_slot_length; exact Hj).
    rewrite settle_slot_lookup by exact Hj.
    destruct (decide (i = j)) as [->|Hne].
    + rewrite (decide_True (P := j ∈ j :: completion)) by apply list_elem_of_here.
      destruct (promises !! j ≫= settled_of); destruct (decide (j ∈ completion)); reflexivity.
    + destruct (decide (j ∈ completion)) as [Hin|Hnin].
      * rewrite decide_True by (apply list_elem_of_further; exact Hin). reflexivity.
      * rewrite decide_False; [reflexivity|].
        intros [?|?]%elem_of_cons; congruence.
Qed.

(** Whatever the completion order, a fulfilled [allSettled] holds the
    outcome of promise [i] at index [i]. *)
Lemma allSettled_Fulfilled_inv completion promises results :
  allSettled completion promises = Fulfilled results →
  mapM settled_of promises = Some results.
Proof.
  unfold allSettled. intros H.
  destruct (mapM id _) as [rs|] eqn:Hm; [|discriminate].
  injection H as ->.
  apply mapM_Some in Hm. apply mapM_Some.
  apply Forall2_same_length_lookup in Hm as [Hlen Hm].
  rewrite foldl_settle_length, length_replicate in Hlen.
  apply Forall2_same_length_lookup. split; [exact Hlen|].
  intros i p r Hp Hr.
  assert (Hi : (i < length promises)%nat) by (eapply lookup_lt_Some; exact Hp).
  pose proof (foldl_settle_lookup promises completion
                (replicate (length promises) None) i) as Hs.
  rewrite length_replicate in Hs. specialize (Hs Hi).
  rewrite lookup_replicate_2 in Hs by exact Hi.
  rewrite Hp in Hs. simpl in Hs.
  destruct (foldl _ _ _ !! i) as [slot|] eqn:Hslot.
  - specialize (Hm i slot r Hslot Hr). simpl in Hm. subst slot.
    destruct (decide (i ∈ completion)); [|discriminate].
    destruct (settled_of p); congruence.
  - destruct (decide (i ∈ completion)); [destruct (settled_of p)|]; discriminate.
Qed.

(** Once every promise has settled, in any order, [allSettled] is
    fulfilled with the outcomes in the order of the input array. *)
Lemma allSettled_complete completion promises results :
  (∀ i, (i < length promises)%nat → i ∈ completion) →
  mapM settled_of promises = Some results →
  allSettled completion promises = Fulfilled results.
Proof.
  intros Hcover Hm. unfold allSettled.
  apply mapM_Some in Hm.
  apply Forall2_same_length_lookup in Hm as [Hlen Hm].
  assert (Hs : mapM id (foldl (settle_slot promises)
                 (replicate (length promises) None) completion) = Some results).
  { apply mapM_Some. apply Forall2_same_length_lookup. split.
    - rewrite foldl_settle_length, length_replicate. exact Hlen.
    - intros i slot r Hslot Hr. simpl.
      assert (Hi : (i < length promises)%nat)
        by (rewrite Hlen; eapply lookup_lt_Some; exact Hr).
      rewrite foldl_settle_lookup in Hslot by (rewrite length_replicate; exact Hi).
      rewrite decide_True in Hslot by (apply Hcover; exact Hi).
      destruct (promises !! i) as [p|] eqn:Hp.
      + simpl in Hslot. rewrite (Hm i p r Hp Hr) in Hslot. congruence.
      + apply lookup_ge_None in Hp. lia. }
  rewrite Hs. reflexivity.
Qed.

End AllSettled.

(** ** The [forEach] loop of [runAllHealthChecks] *)

Lemma process_result_app acc index result :
  process_result acc (index, result) = acc ++ contribution index result.
Proof.
  unfold contribution, process_result.
  destruct result as [[value|]|reason]; simpl; rewrite ?app_nil_r; reflexivity.
Qed.

Lemma foldl_process_result results : ∀ f acc k,
  (∀ i r, f i r = ((k + i)%nat, r)) →
  foldl process_result acc (imap f results) = acc ++ collect k results.
Proof.
  induction results as [|result rest IH]; intros f acc k Hf.
  - simpl. rewrite app_nil_r. reflexivity.
  - rewrite imap_cons. cbn [foldl collect].
    rewrite Hf, Nat.add_0_r, process_result_app.
    rewrite (IH (f ∘ S) _ (S k)).
    + rewrite <- app_assoc. reflexivity.
    + intros i r. unfold compose. rewrite Hf. f_equal. lia.
Qed.

Lemma process_results_collect results :
  process_results results = collect 0 results.
Proof.
  unfold process_results.
  rewrite (foldl_process_result results _ [] 0%nat); reflexivity.
Qed.

Lemma elem_of_collect results : ∀ k x,
  x ∈ collect k results ↔
  ∃ i result, results !! i = Some result ∧ x ∈ contribution (k + i) result.
Proof.
  induction results as [|result rest IH]; intros k x; cbn [collect].
  - split; [intros H; apply elem_of_nil in H; contradiction|].
    intros (i & r & Hi & _). rewrite lookup_nil in Hi. discriminate.
  - rewrite elem_of_app, IH. split.
    + intros [Hx|(i & r & Hi & Hx)].
      * exists 0%nat, result. rewrite Nat.add_0_r. split; [reflexivity|exact Hx].
      * exists (S i), r. split; [exact Hi|].
        replace (k + S i)%nat with (S k + i)%nat by lia. exact Hx.
    + intros ([|i] & r & Hi & Hx).
      * left. simpl in Hi. injection Hi as ->.
        rewrite Nat.add_0_r in Hx. exact Hx.
      * right. exists i, r. split; [exact Hi|].
        replace (S k + i)%nat with (k + S i)%nat by lia. exact Hx.
Qed.

(** The orchestrator is fulfilled as soon as every promise has settled,
    and its value depends on the outcomes only. *)
Lemma runAllHealthChecks_with_fulfilled completion promises results :
  (∀ i, (i < length promises)%nat → i ∈ completion) →
  mapM settled_of promises = Some results →
  runAllHealthChecks_with completion promises = Fulfilled (collect 0 results).
Proof.
  intros Hcover Hm. unfold runAllHealthChecks_with.
  rewrite (allSettled_complete _ _ _ Hcover Hm), process_results_collect.
  reflexivity.
Qed.

Lemma runAllHealthChecks_with_inv completion promises checks :
  runAllHealthChecks_with completion promises = Fulfilled checks →
  ∃ results, mapM settled_of promises = Some results ∧ checks = collect 0 results.
Proof.
  unfold runAllHealthChecks_with. intros H.
  destruct (allSettled completion promises) as [|results|] eqn:Hall; try discriminate.
  injection H as <-. exists results. split.
  - eapply allSettled_Fulfilled_inv. exact Hall.
  - apply process_results_collect.
Qed.

Lemma allSettled_not_rejected {A} completion (promises : list (Promise A)) reason :
  allSettled completion promises ≠ Rejected reason.
Proof. unfold allSettled. destruct (mapM id _); discriminate. Qed.

Lemma settled_of_total {A} (promises : list (Promise A)) :
  Forall (λ p, p ≠ Pending) promises →
  ∃ results, mapM settled_of promises = Some results.
Proof.
  induction 1 as [|p promises Hp _ [results IH]].
  - exists []. reflexivity.
  - destruct p as [|value|reason]; [contradiction| |].
    + exists (PromiseFulfilledResult value :: results).
      apply mapM_Some. constructor; [reflexivity|]. apply mapM_Some, IH.
    + exists (PromiseRejectedResult reason :: results).
      apply mapM_Some. constructor; [reflexivity|]. apply mapM_Some, IH.
Qed.

Lemma covers_declaration_order completion (n : nat) :
  completion ≡ₚ seq 0 n → ∀ i, (i < n)%nat → i ∈ completion.
Proof.
  intros Hperm i Hi. rewrite Hperm. apply elem_of_seq. lia.
Qed.

(** ** The race inside [checkDNSPort] *)

Section Race.
Variables (testHost : string) (testPort : number).

Lemma resolved_values_app cs1 cs2 :
  resolved_values (cs1 ++ cs2) = resolved_values cs1 ++ resolved_values cs2.
Proof. apply omap_app. Qed.

(** Once a callback has run, the runtime has nothing left to run. *)
Lemma deliver_finished r a ev :
  finished r a → deliver testHost testPort ev a = None.
Proof.
  intros (Htimer & Hsock & _ & _).
  destruct ev; simpl; rewrite ?Htimer, ?Hsock; reflexivity.
Qed.

Lemma event_loop_finished r events : ∀ a,
  finished r a → event_loop testHost testPort events a = a.
Proof.
  induction events as [|ev events IH]; intros a Ha; simpl.
  - reflexivity.
  - rewrite (deliver_finished r a ev Ha). simpl. apply IH, Ha.
Qed.

(** While the race is open, an event with a callback ends it. *)
Lemma deliver_racing a ev r :
  racing a → outcome testHost testPort ev = Some r →
  ∃ a', deliver testHost testPort ev a = Some a' ∧ finished r a'.
Proof.
  intros (Htimer & Hsock & Hpending & Hcalls) Hout.
  destruct ev; simpl in Hout; try discriminate; injection Hout as <-;
    simpl; rewrite ?Htimer, ?Hsock; eexists; (split; [reflexivity|]);
    unfold finished, on_timer, on_connect_event, on_error_event,
      resolve, socket_destroy, clearTimeout; simpl;
    rewrite Hpending, !resolved_values_app, Hcalls; auto.
Qed.

Lemma deliver_racing_no_listener a :
  racing a → deliver testHost testPort SocketTimeout a = Some a.
Proof. intros (_ & Hsock & _). simpl. rewrite Hsock. reflexivity. Qed.

(** The first event with a callback wins, the timer at the latest. *)
Lemma event_loop_racing events : ∀ a,
  racing a →
  finished (winner testHost testPort events)
           (event_loop testHost testPort (events ++ [TimerFires]) a).
Proof.
  induction events as [|ev events IH]; intros a Ha.
  - destruct (deliver_racing a TimerFires _ Ha eq_refl) as (a' & Hd & Hfin).
    simpl app. cbn [event_loop winner]. rewrite Hd. exact Hfin.
  - simpl app. cbn [event_loop winner].
    destruct (outcome testHost testPort ev) as [r|] eqn:Hout.
    + destruct (deliver_racing a ev r Ha Hout) as (a' & Hd & Hfin).
      rewrite Hd. simpl. rewrite (event_loop_finished r _ a' Hfin). exact Hfin.
    + destruct ev; try discriminate.
      rewrite (deliver_racing_no_listener a Ha). simpl. apply IH, Ha.
Qed.

Lemma winner_outcome events :
  winner testHost testPort events = connect_result testHost testPort
  ∨ winner testHost testPort events = timeout_result testHost testPort
  ∨ ∃ m c, winner testHost testPort events = error_result testHost testPort m c.
Proof.
  induction events as [|ev events IH]; simpl.
  - right. left. reflexivity.
  - destruct ev; simpl; eauto.
Qed.

End Race.

(** The three ways a call of [checkDNSPort] can go. *)
Lemma checkDNSPort_cases w hostname port :
  let a := checkDNSPort w hostname port in
  let testHost := dns_testHost w hostname in
  let testPort := dns_testPort w port in
  (dns_skip w hostname port = true ∧ promise a = Fulfilled None ∧ net_calls a = [])
  ∨ (dns_skip w hostname port = false
     ∧ ∃ err, net_create_connection w testHost testPort timeout = ThrowsSync err
              ∧ promise a = Rejected err
              ∧ net_calls a = [CreateConnection testHost testPort timeout])
  ∨ (dns_skip w hostname port = false
     ∧ ∃ events, net_create_connection w testHost testPort timeout = Emits events
                 ∧ finished (winner testHost testPort events) a).
Proof.
  unfold checkDNSPort.
  destruct (dns_skip w hostname port) eqn:Hskip; cbn zeta.
  - left. auto.
  - right.
    destruct (net_create_connection w _ _ timeout) as [err|events] eqn:Hnet.
    + left. split; [reflexivity|]. exists err. auto.
    + right. split; [reflexivity|]. exists events. split; [reflexivity|].
      apply event_loop_racing. unfold racing. simpl. auto.
Qed.

(** ** What each probe returns *)

Ltac run_body :=
  cbv beta iota zeta delta
    [run_async try_catch mbind M_bind mret M_ret throw
     new_Client client_connect client_query client_end first_current_time
     require_set s3Client_send_HeadBucket
     sesClient_send_GetIdentityVerificationAttributes record_call set_conn
     idle fst snd pg_conn calls].

(** Case analysis on the innermost undecided answer of the world. *)
Ltac split_matches :=
  repeat match goal with
         | |- context [match ?x with _ => _ end] =>
             lazymatch x with
             | context [match _ with _ => _ end] => fail
             | _ => destruct x eqn:?; run_body
             end
         end.

Lemma checkDatabase_cases w :
  fst (checkDatabase w) = Fulfilled None
  ∨ ∃ r, fst (checkDatabase w) = Fulfilled (Some r)
         ∧ service r = "PostgreSQL Database" ∧ is_Some (details r).
Proof.
  unfold checkDatabase, checkDatabase_body.
  destruct (_ || _); run_body; [left; reflexivity|].
  right. split_matches; eexists; (split; [reflexivity|]); cbn; eauto.
Qed.

Lemma checkS3_cases w :
  fst (checkS3 w) = Fulfilled None
  ∨ ∃ r, fst (checkS3 w) = Fulfilled (Some r)
         ∧ service r = "AWS S3" ∧ is_Some (details r).
Proof.
  unfold checkS3, checkS3_body.
  destruct (negb _); run_body; [left; reflexivity|].
  right. split_matches; eexists; (split; [reflexivity|]); cbn; eauto.
Qed.

Lemma checkSES_cases w :
  fst (checkSES w) = Fulfilled None
  ∨ ∃ r, fst (checkSES w) = Fulfilled (Some r)
         ∧ service r = "AWS SES" ∧ is_Some (details r).
Proof.
  unfold checkSES, checkSES_body.
  destruct (negb _); run_body; [left; reflexivity|].
  right. split_matches; eexists; (split; [reflexivity|]); cbn; eauto.
Qed.

Lemma winner_service testHost testPort events :
  service (winner testHost testPort events) = "DNS/Port Connectivity"
  ∧ is_Some (details (winner testHost testPort events)).
Proof.
  destruct (winner_outcome testHost testPort events) as [->|[->|(m & c & ->)]];
    simpl; eauto.
Qed.

(** ** The five promises of a batch *)

Lemma probes_not_pending w : Forall (λ p, p ≠ Pending) (probes w).
Proof.
  unfold probes.
  destruct (checkDatabase_cases w) as [->|(? & -> & _)];
  destruct (checkS3_cases w) as [->|(? & -> & _)];
  destruct (checkSES_cases w) as [->|(? & -> & _)];
  pose proof (checkDNSPort_cases w None None) as Hdns; cbn zeta in Hdns;
  destruct Hdns as [(_ & -> & _)|[(_ & ? & _ & -> & _)|(_ & ? & _ & _ & _ & -> & _)]];
  repeat constructor; discriminate.
Qed.

(** Every batch settles, and its value is the same for every order in
    which the five promises complete. *)
Lemma runAllHealthChecks_fulfilled w completion :
  completion ≡ₚ declaration_order →
  ∃ results, mapM settled_of (probes w) = Some results
             ∧ runAllHealthChecks w completion = Fulfilled (collect 0 results).
Proof.
  intros Hperm.
  destruct (settled_of_total _ (probes_not_pending w)) as [results Hm].
  exists results. split; [exact Hm|].
  apply runAllHealthChecks_with_fulfilled; [|exact Hm].
  apply covers_declaration_order. exact Hperm.
Qed.

Lemma runAllHealthChecks_not_rejected w completion reason :
  runAllHealthChecks w completion ≠ Rejected reason.
Proof.
  unfold runAllHealthChecks, runAllHealthChecks_with.
  destruct (allSettled completion (probes w)) eqn:Hall; try discriminate.
  exfalso. eapply allSettled_not_rejected. exact Hall.
Qed.

Lemma collect_names w results :
  mapM settled_of (probes w) = Some results →
  service <$> collect 0 results = reported_names (probes w).
Proof.
  unfold probes, reported_names.
  destruct (checkDatabase_cases w) as [->|(? & -> & ? & _)];
  destruct (checkS3_cases w) as [->|(? & -> & ? & _)];
  destruct (checkSES_cases w) as [->|(? & -> & ? & _)];
  pose proof (checkDNSPort_cases w None None) as Hdns; cbn zeta in Hdns;
  destruct Hdns as [(_ & -> & _)|[(_ & ? & _ & -> & _)|(_ & events & _ & _ & _ & -> & _)]];
  intros Hm; cbn in Hm; injection Hm as <-; cbn;
  repeat match goal with
         | H : service _ = _ |- _ => rewrite H; clear H
         end;
  rewrite ?(proj1 (winner_service _ _ _)); reflexivity.
Qed.

Lemma reported_names_sublist promises :
  reported_names promises `sublist_of` services.
Proof.
  unfold reported_names. generalize services.
  induction promises as [|p promises IH]; intros names.
  - destruct names; apply sublist_nil_l.
  - destruct names as [|name names]; [apply sublist_nil_l|].
    cbn [zip_with concat].
    destruct p as [|[value|]|reason]; simpl;
      first [apply sublist_skip, IH | apply sublist_cons, IH].
Qed.

(** ** Fault interception at the per-probe boundary *)

Lemma settled_lookup {A} (promises : list (Promise A)) results i p :
  mapM settled_of promises = Some results →
  promises !! i = Some p →
  ∃ s, results !! i = Some s ∧ settled_of p = Some s.
Proof.
  intros Hm Hp. apply mapM_Some in Hm.
  destruct (Forall2_lookup_l _ _ _ _ _ Hm Hp) as (s & Hs & Hps). eauto.
Qed.

Lemma settled_lookup_inv {A} (promises : list (Promise A)) results i s :
  mapM settled_of promises = Some results →
  results !! i = Some s →
  ∃ p, promises !! i = Some p ∧ settled_of p = Some s.
Proof.
  intros Hm Hs. apply mapM_Some in Hm.
  destruct (Forall2_lookup_r _ _ _ _ _ Hm Hs) as (p & Hp & Hps). eauto.
Qed.

(** What the loop pushes for a rejected and for a fulfilled promise. *)
Lemma collect_rejected promises results i reason :
  mapM settled_of promises = Some results →
  promises !! i = Some (Rejected reason) →
  rejected_result i reason ∈ collect 0 results.
Proof.
  intros Hm Hp.
  destruct (settled_lookup _ _ _ _ Hm Hp) as (s & Hs & Hps).
  simpl in Hps. injection Hps as <-.
  apply elem_of_collect. exists i, (PromiseRejectedResult reason).
  split; [exact Hs|]. simpl. apply list_elem_of_here.
Qed.

Lemma collect_fulfilled promises results j value :
  mapM settled_of promises = Some results →
  promises !! j = Some (Fulfilled (Some value)) →
  value ∈ collect 0 results.
Proof.
  intros Hm Hp.
  destruct (settled_lookup _ _ _ _ Hm Hp) as (s & Hs & Hps).
  simpl in Hps. injection Hps as <-.
  apply elem_of_collect. exists j, (PromiseFulfilledResult (Some value)).
  split; [exact Hs|]. simpl. apply list_elem_of_here.
Qed.

(** Every pushed result comes from a promise that was fulfilled with it or
    from one that rejected. *)
Lemma collect_origin promises results r :
  mapM settled_of promises = Some results →
  r ∈ collect 0 results →
  (∃ i, promises !! i = Some (Fulfilled (Some r)))
  ∨ (∃ i reason, promises !! i = Some (Rejected reason) ∧ r = rejected_result i reason).
Proof.
  intros Hm Hr.
  apply elem_of_collect in Hr as (i & s & Hs & Hin). simpl in Hin.
  destruct (settled_lookup_inv _ _ _ _ Hm Hs) as (p & Hp & Hps).
  destruct p as [|value|reason]; simpl in Hps; [discriminate| |];
    injection Hps as <-; unfold contribution in Hin; simpl in Hin.
  - destruct value as [value|].
    + apply list_elem_of_singleton in Hin as ->. left. eauto.
    + apply elem_of_nil in Hin. contradiction.
  - apply list_elem_of_singleton in Hin as ->. right. eauto.
Qed.

Lemma probes_length w : length (probes w) = 5%nat.
Proof. reflexivity. Qed.

Lemma probe_results_have_details w i r :
  probes w !! i = Some (Fulfilled (Some r)) → is_Some (details r).
Proof.
  unfold probes.
  destruct (checkDatabase_cases w) as [H1|(r1 & H1 & _ & D1)];
  destruct (checkS3_cases w) as [H2|(r2 & H2 & _ & D2)];
  destruct (checkSES_cases w) as [H3|(r3 & H3 & _ & D3)];
  pose proof (checkDNSPort_cases w None None) as Hdns; cbn zeta in Hdns;
  destruct Hdns as [(_ & H4 & _)|[(_ & ? & _ & H4 & _)|(_ & events & _ & _ & _ & H4 & _)]];
  rewrite H1, H2, H3, H4;
  destruct i as [|[|[|[|[|i]]]]]; simpl; intros Hi; try discriminate;
  injection Hi as <-; simpl; eauto; apply winner_service.
Qed.

(** C1. In every batch run, a probe whose promise rejects is replaced by an
    error result that carries the probe's declared service name and the
    message "Health check failed: ..." (followed by the fault's message, or
    "Unknown error"), and has no details; the result of every other probe
    that returned one is in the returned list as well. *)
Theorem rejected_probe_is_isolated w completion i reason :
  completion ≡ₚ declaration_order →
  probes w !! i = Some (Rejected reason) →
  ∃ checks name,
    runAllHealthChecks w completion = Fulfilled checks
    ∧ services !! i = Some name
    ∧ {| service := name;
         status := error;
         message := "Health check failed: " +:+ errorMessage reason;
         details := None |} ∈ checks
    ∧ ∀ j value, probes w !! j = Some (Fulfilled (Some value)) → value ∈ checks.
Proof.
  intros Hperm Hi.
  destruct (runAllHealthChecks_fulfilled w completion Hperm) as (results & Hm & Hrun).
  assert (Hlt : (i < length services)%nat).
  { apply lookup_lt_Some in Hi. rewrite probes_length in Hi. exact Hi. }
  destruct (lookup_lt_is_Some_2 _ _ Hlt) as [name Hname].
  exists (collect 0 results), name. split; [exact Hrun|]. split; [exact Hname|]. split.
  - pose proof (collect_rejected _ _ _ _ Hm Hi) as Hin.
    unfold rejected_result in Hin. rewrite Hname in Hin. exact Hin.
  - intros j value Hj. eapply collect_fulfilled; eassumption.
Qed.

Lemma rejected_probe_is_isolated_witness :
  [4; 1; 2; 3; 0]%nat ≡ₚ declaration_order
  ∧ probes Scenarios.db_down_bad_port !! 4%nat
    = Some (Rejected (ErrorObj "Port should be >= 0 and < 65536."
                               (Some "ERR_SOCKET_BAD_PORT")))
  ∧ ∃ checks name,
      runAllHealthChecks Scenarios.db_down_bad_port [4; 1; 2; 3; 0]%nat = Fulfilled checks
      ∧ services !! 4%nat = Some name
      ∧ {| service := name;
           status := error;
           message := "Health check failed: Port should be >= 0 and < 65536.";
           details := None |} ∈ checks
      ∧ ∀ j value, probes Scenarios.db_down_bad_port !! j = Some (Fulfilled (Some value))
                   → value ∈ checks.
Proof.
  assert (Hperm : [4; 1; 2; 3; 0]%nat ≡ₚ declaration_order)
    by (refine (bool_decide_unpack _ _); vm_compute; exact I).
  split; [exact Hperm|]. split; [vm_compute; reflexivity|].
  apply (rejected_probe_is_isolated Scenarios.db_down_bad_port [4; 1; 2; 3; 0]%nat 4%nat
           (ErrorObj "Port should be >= 0 and < 65536." (Some "ERR_SOCKET_BAD_PORT")));
    [exact Hperm | vm_compute; reflexivity].
Defined.

(** ** Output order *)

(** C4. The returned list holds the probes that did not skip in the fixed
    declaration order (Application Port, PostgreSQL Database, AWS S3,
    AWS SES, DNS/Port Connectivity), and it is the same list for any two
    orders in which the five concurrent executions complete. *)
Theorem checks_follow_declaration_order w completion1 completion2 :
  completion1 ≡ₚ declaration_order →
  completion2 ≡ₚ declaration_order →
  ∃ checks,
    runAllHealthChecks w completion1 = Fulfilled checks
    ∧ runAllHealthChecks w completion2 = Fulfilled checks
    ∧ service <$> checks = reported_names (probes w)
    ∧ (service <$> checks) `sublist_of`
        ["Application Port"; "PostgreSQL Database"; "AWS S3"; "AWS SES";
         "DNS/Port Connectivity"].
Proof.
  intros Hperm1 Hperm2.
  destruct (runAllHealthChecks_fulfilled w completion1 Hperm1) as (results & Hm & Hrun1).
  destruct (runAllHealthChecks_fulfilled w completion2 Hperm2) as (results' & Hm' & Hrun2).
  assert (results' = results) as -> by congruence.
  exists (collect 0 results). split; [exact Hrun1|]. split; [exact Hrun2|].
  rewrite (collect_names w results Hm). split; [reflexivity|].
  apply reported_names_sublist.
Qed.

Lemma checks_follow_declaration_order_witness :
  [4; 2; 0; 3; 1]%nat ≡ₚ declaration_order
  ∧ [1; 0; 3; 4; 2]%nat ≡ₚ declaration_order
  ∧ ∃ checks,
      runAllHealthChecks Scenarios.all_configured [4; 2; 0; 3; 1]%nat = Fulfilled checks
      ∧ runAllHealthChecks Scenarios.all_configured [1; 0; 3; 4; 2]%nat = Fulfilled checks
      ∧ service <$> checks = reported_names (probes Scenarios.all_configured)
      ∧ (service <$> checks) `sublist_of`
          ["Application Port"; "PostgreSQL Database"; "AWS S3"; "AWS SES";
           "DNS/Port Connectivity"].
Proof.
  assert (H1 : [4; 2; 0; 3; 1]%nat ≡ₚ declaration_order)
    by (refine (bool_decide_unpack _ _); vm_compute; exact I).
  assert (H2 : [1; 0; 3; 4; 2]%nat ≡ₚ declaration_order)
    by (refine (bool_decide_unpack _ _); vm_compute; exact I).
  split; [exact H1|]. split; [exact H2|].
  apply (checks_follow_declaration_order Scenarios.all_configured
           [4; 2; 0; 3; 1]%nat [1; 0; 3; 4; 2]%nat); [exact H1 | exact H2].
Defined.

(** ** Results without details *)

(** C10. In the list a batch returns, the result pushed for a rejected probe
    has no details, every result a probe returned itself has details, and so
    an entry has no details exactly when it is the orchestrator's result for
    a rejected probe. *)
Theorem missing_details_mark_interception w completion checks :
  runAllHealthChecks w completion = Fulfilled checks →
  (∀ i reason, probes w !! i = Some (Rejected reason) →
     rejected_result i reason ∈ checks ∧ details (rejected_result i reason) = None)
  ∧ (∀ i r, probes w !! i = Some (Fulfilled (Some r)) →
       r ∈ checks ∧ is_Some (details r))
  ∧ (∀ r, r ∈ checks →
       details r = None ↔
       ∃ i reason, probes w !! i = Some (Rejected reason) ∧ r = rejected_result i reason).
Proof.
  intros Hrun.
  apply runAllHealthChecks_with_inv in Hrun as (results & Hm & ->).
  split; [|split].
  - intros i reason Hi. split; [|reflexivity].
    eapply collect_rejected; eassumption.
  - intros i r Hi. split.
    + eapply collect_fulfilled; eassumption.
    + eapply probe_results_have_details. exact Hi.
  - intros r Hr. split.
    + intros Hnone.
      destruct (collect_origin _ _ _ Hm Hr) as [(i & Hi)|Hrej]; [|exact Hrej].
      apply probe_results_have_details in Hi as [d Hd]. congruence.
    + intros (i & reason & _ & ->). reflexivity.
Qed.

Lemma missing_details_mark_interception_witness :
  let checks :=
    [ checkPort Scenarios.db_down_bad_port;
      {| service := "PostgreSQL Database";
         status := error;
         message := "Database connection failed: connect ECONNREFUSED 10.0.0.9:5432";
         details := Some [("connected", JBool false);
                          ("issue", JStr "Connection refused or authentication failed")] |};
      {| service := "DNS/Port Connectivity";
         status := error;
         message := "Health check failed: Port should be >= 0 and < 65536.";
         details := None |} ] in
  runAllHealthChecks Scenarios.db_down_bad_port [0; 1; 2; 3; 4]%nat = Fulfilled checks
  ∧ (∀ r, r ∈ checks →
       details r = None ↔
       ∃ i reason, probes Scenarios.db_down_bad_port !! i = Some (Rejected reason)
                   ∧ r = rejected_result i reason).
Proof.
  intros checks.
  assert (Hrun : runAllHealthChecks Scenarios.db_down_bad_port [0; 1; 2; 3; 4]%nat
                 = Fulfilled checks) by (vm_compute; reflexivity).
  split; [exact Hrun|].
  exact (proj2 (proj2 (missing_details_mark_interception
                         Scenarios.db_down_bad_port [0; 1; 2; 3; 4]%nat checks Hrun))).
Defined.

(** ** The report of [GET /api/health] *)

Lemma passed_plus_failed checks :
  (length (List.filter (has_status success) checks)
   + length (List.filter (has_status error) checks))%nat = length checks.
Proof.
  induction checks as [|r checks IH]; [reflexivity|].
  destruct r as [name [] msg d]; cbn; cbn in IH; lia.
Qed.

Lemma hasErrors_iff_failed checks :
  existsb (has_status error) checks = true
  ↔ (0 < length (List.filter (has_status error) checks))%nat.
Proof.
  induction checks as [|r checks IH]; simpl.
  - split; [discriminate|lia].
  - destruct (has_status error r); simpl; [split; [lia|reflexivity]|exact IH].
Qed.

(** The invariants of the report, for any list of results. *)
Lemma GET_report_invariants checks now :
  ∃ (st : string) (total passed failed : nat),
    GET_report checks now =
      {| http_status := if existsb (has_status error) checks then 503 else 200;
         headers := no_cache_headers;
         body := JObj [("status", JStr st);
                       ("timestamp", JStr now);
                       ("checks", JArr (json_of_result <$> checks));
                       ("summary", JObj [("total", count total);
                                         ("passed", count passed);
                                         ("failed", count failed)])] |}
    ∧ total = length checks
    ∧ (passed + failed)%nat = total
    ∧ (st = "unhealthy" ↔ (0 < failed)%nat)
    ∧ (st = "healthy" ↔ failed = 0%nat).
Proof.
  exists (if existsb (has_status error) checks then "unhealthy" else "healthy"),
         (length checks),
         (length (List.filter (has_status success) checks)),
         (length (List.filter (has_status error) checks)).
  split; [reflexivity|]. split; [reflexivity|]. split; [apply passed_plus_failed|].
  pose proof (hasErrors_iff_failed checks) as Herr.
  destruct (existsb (has_status error) checks).
  - assert (0 < length (List.filter (has_status error) checks))%nat
      by (apply Herr; reflexivity).
    split; split; intros; try reflexivity; try discriminate; lia.
  - assert (¬ (0 < length (List.filter (has_status error) checks))%nat)
      by (intros H; apply Herr in H; discriminate).
    split; split; intros; try reflexivity; try discriminate; lia.
Qed.

(** C2. The report that [GET] assembles from the orchestrator's list has
    total = number of checks, passed + failed = total, and overall status
    "unhealthy" exactly when failed > 0. *)
Theorem report_summary_invariants w completion now response :
  GET w completion now = Fulfilled response →
  ∃ checks (st : string) (total passed failed : nat),
    runAllHealthChecks w completion = Fulfilled checks
    ∧ body response =
        JObj [("status", JStr st);
              ("timestamp", JStr now);
              ("checks", JArr (json_of_result <$> checks));
              ("summary", JObj [("total", count total);
                                ("passed", count passed);
                                ("failed", count failed)])]
    ∧ total = length checks
    ∧ (passed + failed)%nat = total
    ∧ (st = "unhealthy" ↔ (0 < failed)%nat).
Proof.
  unfold GET. intros Hget.
  destruct (runAllHealthChecks w completion) as [|checks|reason] eqn:Hrun.
  - discriminate.
  - injection Hget as <-.
    destruct (GET_report_invariants checks now)
      as (st & total & passed & failed & -> & Htotal & Hsum & Hst & _).
    exists checks, st, total, passed, failed. auto.
  - exfalso. eapply runAllHealthChecks_not_rejected. exact Hrun.
Qed.

Lemma report_summary_invariants_witness :
  let response :=
    GET_report
      [ checkPort Scenarios.db_unreachable;
        {| service := "PostgreSQL Database";
           status := error;
           message := "Database connection failed: connect ECONNREFUSED 10.0.0.9:5432";
           details := Some [("connected", JBool false);
                            ("issue", JStr "Connection refused or authentication failed")] |} ]
      "2025-01-01T00:00:00.000Z" in
  GET Scenarios.db_unreachable [3; 0; 4; 1; 2]%nat "2025-01-01T00:00:00.000Z"
    = Fulfilled response
  ∧ http_status response = 503
  ∧ ∃ checks (st : string) (total passed failed : nat),
      runAllHealthChecks Scenarios.db_unreachable [3; 0; 4; 1; 2]%nat = Fulfilled checks
      ∧ body response =
          JObj [("status", JStr st);
                ("timestamp", JStr "2025-01-01T00:00:00.000Z");
                ("checks", JArr (json_of_result <$> checks));
                ("summary", JObj [("total", count total);
                                  ("passed", count passed);
                                  ("failed", count failed)])]
      ∧ total = length checks
      ∧ (passed + failed)%nat = total
      ∧ (st = "unhealthy" ↔ (0 < failed)%nat).
Proof.
  intros response.
  assert (Hget : GET Scenarios.db_unreachable [3; 0; 4; 1; 2]%nat
                   "2025-01-01T00:00:00.000Z" = Fulfilled response)
    by (vm_compute; reflexivity).
  split; [exact Hget|]. split; [vm_compute; reflexivity|].
  exact (report_summary_invariants Scenarios.db_unreachable [3; 0; 4; 1; 2]%nat
           "2025-01-01T00:00:00.000Z" response Hget).
Defined.

(** ** Determinism *)

(** C8. Two runs of the batch in the same world (same configuration, same
    answers of the dependencies) give the same HTTP status, overall status,
    checks and summary, whatever the completion orders and the clocks; the
    two reports can differ in the timestamp only. *)
Theorem batch_is_deterministic w completion1 completion2 now1 now2 :
  completion1 ≡ₚ declaration_order →
  completion2 ≡ₚ declaration_order →
  ∃ (code : Z) (st checks summary : json),
    GET w completion1 now1 = Fulfilled
      {| http_status := code; headers := no_cache_headers;
         body := JObj [("status", st); ("timestamp", JStr now1);
                       ("checks", checks); ("summary", summary)] |}
    ∧ GET w completion2 now2 = Fulfilled
      {| http_status := code; headers := no_cache_headers;
         body := JObj [("status", st); ("timestamp", JStr now2);
                       ("checks", checks); ("summary", summary)] |}.
Proof.
  intros Hperm1 Hperm2.
  destruct (runAllHealthChecks_fulfilled w completion1 Hperm1) as (results & Hm & Hrun1).
  destruct (runAllHealthChecks_fulfilled w completion2 Hperm2) as (results' & Hm' & Hrun2).
  assert (results' = results) as -> by congruence.
  unfold GET. rewrite Hrun1, Hrun2. unfold GET_report.
  do 4 eexists. split; reflexivity.
Qed.

Lemma batch_is_deterministic_witness :
  [4; 2; 0; 3; 1]%nat ≡ₚ declaration_order
  ∧ [1; 0; 3; 4; 2]%nat ≡ₚ declaration_order
  ∧ ∃ (code : Z) (st checks summary : json),
      GET Scenarios.all_configured [4; 2; 0; 3; 1]%nat "2025-01-01T00:00:00.000Z" = Fulfilled
        {| http_status := code; headers := no_cache_headers;
           body := JObj [("status", st); ("timestamp", JStr "2025-01-01T00:00:00.000Z");
                         ("checks", checks); ("summary", summary)] |}
      ∧ GET Scenarios.all_configured [1; 0; 3; 4; 2]%nat "2025-01-01T00:00:30.000Z" = Fulfilled
        {| http_status := code; headers := no_cache_headers;
           body := JObj [("status", st); ("timestamp", JStr "2025-01-01T00:00:30.000Z");
                         ("checks", checks); ("summary", summary)] |}.
Proof.
  assert (H1 : [4; 2; 0; 3; 1]%nat ≡ₚ declaration_order)
    by (refine (bool_decide_unpack _ _); vm_compute; exact I).
  assert (H2 : [1; 0; 3; 4; 2]%nat ≡ₚ declaration_order)
    by (refine (bool_decide_unpack _ _); vm_compute; exact I).
  split; [exact H1|]. split; [exact H2|].
  apply (batch_is_deterministic Scenarios.all_configured
           [4; 2; 0; 3; 1]%nat [1; 0; 3; 4; 2]%nat
           "2025-01-01T00:00:00.000Z" "2025-01-01T00:00:30.000Z"); [exact H1 | exact H2].
Defined.

(** ** The precondition gates *)

Lemma is_absent_negb e k : is_absent e k ↔ negb (truthy (e !! k)) = true.
Proof. unfold is_absent. destruct (truthy (e !! k)); simpl; split; congruence. Qed.

Lemma some_field_absent_Database w :
  some_field_absent Database w ↔
  negb (truthy (env w !! "DB_HOST")) || negb (truthy (env w !! "DB_NAME"))
  || negb (truthy (env w !! "DB_USERNAME")) || negb (truthy (env w !! "DB_PASSWORD"))
  = true.
Proof.
  unfold some_field_absent. simpl. split.
  - intros (k & Hk & Habs). apply is_absent_negb in Habs.
    repeat (apply elem_of_cons in Hk as [->|Hk]; [rewrite Habs; simpl;
      rewrite ?orb_true_r; reflexivity|]).
    apply elem_of_nil in Hk. contradiction.
  - intros H. repeat (apply orb_true_iff in H as [H|H]);
      apply is_absent_negb in H; eexists; (split; [|exact H]);
      repeat first [apply list_elem_of_here | apply list_elem_of_further].
Qed.

Lemma some_field_absent_Database_gate w :
  gate_skips Database w ↔
  negb (truthy (env w !! "DB_HOST")) || negb (truthy (env w !! "DB_NAME"))
  || negb (truthy (env w !! "DB_USERNAME")) || negb (truthy (env w !! "DB_PASSWORD"))
  = true.
Proof. apply some_field_absent_Database. Qed.

Lemma some_field_absent_single (p : Probe) k w :
  gate_fields p = [k] →
  some_field_absent p w ↔ negb (truthy (env w !! k)) = true.
Proof.
  unfold some_field_absent. intros ->. split.
  - intros (k' & Hk & Habs). apply list_elem_of_singleton in Hk as ->.
    apply is_absent_negb, Habs.
  - intros H. exists k. split; [apply list_elem_of_here|apply is_absent_negb, H].
Qed.

Lemma every_field_absent_Reachability w :
  every_field_absent Reachability w ↔ dns_skip w None None = true.
Proof.
  unfold every_field_absent, dns_skip. simpl. split.
  - intros H.
    rewrite (proj1 (is_absent_negb _ _) (H "DNS_CHECK_HOST" ltac:(repeat constructor))).
    rewrite (proj1 (is_absent_negb _ _) (H "DNS_CHECK_PORT" ltac:(repeat constructor))).
    reflexivity.
  - intros H k Hk. apply andb_true_iff in H as [Hhost Hport].
    apply is_absent_negb.
    apply elem_of_cons in Hk as [->|Hk]; [exact Hhost|].
    apply list_elem_of_singleton in Hk as ->. exact Hport.
Qed.

(** The gate of each probe decides, and decides alone, whether the probe
    is skipped. *)
Lemma gate_skips_iff_skipped p w : gate_skips p w ↔ probe_skipped p w.
Proof.
  destruct p; unfold gate_skips, probe_skipped.
  - rewrite some_field_absent_Database.
    unfold checkDatabase, checkDatabase_body.
    destruct (_ || _); [split; reflexivity|].
    split; [discriminate|]. run_body. split_matches; discriminate.
  - rewrite (some_field_absent_single ObjectStore "S3_BUCKET_NAME") by reflexivity.
    unfold checkS3, checkS3_body.
    destruct (negb _); [split; reflexivity|].
    split; [discriminate|]. run_body. split_matches; discriminate.
  - rewrite (some_field_absent_single Email "SES_FROM_EMAIL") by reflexivity.
    unfold checkSES, checkSES_body.
    destruct (negb _); [split; reflexivity|].
    split; [discriminate|]. run_body. split_matches; discriminate.
  - rewrite every_field_absent_Reachability.
    pose proof (checkDNSPort_cases w None None) as Hdns. cbn zeta in Hdns.
    destruct Hdns as [(Hs & Hp & Hc)|[(Hs & err & _ & Hp & Hc)|(Hs & events & _ & _ & _ & Hp & _)]];
      rewrite Hs, Hp.
    + split; auto.
    + split; [discriminate|]. intros [? _]. discriminate.
    + split; [discriminate|]. intros [? _]. discriminate.
Qed.

Lemma elem_of_reported_names promises name :
  name ∈ reported_names promises →
  ∃ i p, services !! i = Some name ∧ promises !! i = Some p ∧ p ≠ Fulfilled None.
Proof.
  unfold reported_names. generalize services. intros names. revert names.
  induction promises as [|p promises IH]; intros names Hin.
  - destruct names; simpl in Hin; apply elem_of_nil in Hin; contradiction.
  - destruct names as [|n names]; [simpl in Hin; apply elem_of_nil in Hin; contradiction|].
    cbn [zip_with concat] in Hin. apply elem_of_app in Hin as [Hin|Hin].
    + exists 0%nat, p. destruct p as [|[value|]|reason];
        try (apply elem_of_nil in Hin; contradiction);
        apply list_elem_of_singleton in Hin as ->; repeat split; discriminate.
    + destruct (IH names Hin) as (i & q & Hn & Hq & Hne).
      exists (S i), q. auto.
Qed.

(** A skipped probe leaves no entry under its name. *)
Lemma skipped_not_reported p w completion checks :
  probe_skipped p w →
  runAllHealthChecks w completion = Fulfilled checks →
  probe_name p ∉ service <$> checks.
Proof.
  intros Hskip Hrun Hin.
  apply runAllHealthChecks_with_inv in Hrun as (results & Hm & ->).
  rewrite (collect_names w results Hm) in Hin.
  apply elem_of_reported_names in Hin as (i & q & Hname & Hq & Hne).
  apply Hne. clear Hne Hm.
  destruct p; simpl in Hname, Hskip;
    destruct i as [|[|[|[|[|i]]]]]; try discriminate Hname;
    simpl in Hq; injection Hq as <-.
  - rewrite Hskip. reflexivity.
  - rewrite Hskip. reflexivity.
  - rewrite Hskip. reflexivity.
  - apply Hskip.
Qed.

(** C3, as stated, fails for the reachability probe: with DNS_CHECK_HOST
    set and DNS_CHECK_PORT absent one required field is missing, yet the
    probe runs (against port 80) and its result is reported. *)
Lemma all_or_nothing_fails_for_reachability :
  some_field_absent Reachability Scenarios.dns_host_only
  ∧ ¬ probe_skipped Reachability Scenarios.dns_host_only
  ∧ runAllHealthChecks Scenarios.dns_host_only declaration_order
    = Fulfilled [checkPort Scenarios.dns_host_only;
                 connect_result "example.com" (Num 80)].
Proof.
  split; [|split].
  - exists "DNS_CHECK_PORT". split; [|vm_compute; reflexivity].
    repeat first [apply list_elem_of_here | apply list_elem_of_further].
  - intros [Hp _]. vm_compute in Hp. discriminate.
  - vm_compute. reflexivity.
Qed.

(** ** The database port *)

Lemma or_else_absent v d : truthy v = false → or_else v d = d.
Proof.
  destruct v as [s|]; simpl; [|reflexivity].
  destruct (String.eqb s ""); [reflexivity|discriminate].
Qed.

(** C9. DB_PORT is not part of the database gate: when DB_HOST, DB_NAME,
    DB_USERNAME and DB_PASSWORD are set (non-empty) and DB_PORT is absent,
    the probe is not skipped; it builds its client with port 5432, connects
    with it and returns a result. *)
Theorem database_port_defaults_to_5432 w :
  is_set (env w) "DB_HOST" → is_set (env w) "DB_NAME" →
  is_set (env w) "DB_USERNAME" → is_set (env w) "DB_PASSWORD" →
  is_absent (env w) "DB_PORT" →
  ∃ cfg rest r,
    calls (snd (checkDatabase w)) = NewPgClient cfg :: PgConnect :: rest
    ∧ port cfg = Num 5432
    ∧ host cfg = env w !! "DB_HOST"
    ∧ fst (checkDatabase w) = Fulfilled (Some r)
    ∧ ¬ probe_skipped Database w.
Proof.
  unfold is_set, is_absent. intros Hhost Hname Huser Hpass Hport.
  assert (Hrun : ∃ cfg rest r,
    calls (snd (checkDatabase w)) = NewPgClient cfg :: PgConnect :: rest
    ∧ port cfg = Num 5432
    ∧ host cfg = env w !! "DB_HOST"
    ∧ fst (checkDatabase w) = Fulfilled (Some r)).
  { unfold checkDatabase, checkDatabase_body.
    rewrite Hhost, Hname, Huser, Hpass. simpl negb. simpl orb. cbv iota.
    run_body.
    split_matches; do 3 eexists; (split; [reflexivity|]);
      (split; [|split; reflexivity]);
      unfold client_options; simpl port;
      rewrite (or_else_absent _ "5432" Hport); reflexivity. }
  destruct Hrun as (cfg & rest & r & Hcalls & Hcfg & Hh & Hres).
  exists cfg, rest, r. repeat split; try assumption.
  unfold probe_skipped. intros Hskip. rewrite Hskip in Hres. discriminate.
Qed.

Lemma database_port_defaults_to_5432_witness :
  is_set (env Scenarios.db_unreachable) "DB_HOST"
  ∧ is_set (env Scenarios.db_unreachable) "DB_NAME"
  ∧ is_set (env Scenarios.db_unreachable) "DB_USERNAME"
  ∧ is_set (env Scenarios.db_unreachable) "DB_PASSWORD"
  ∧ is_absent (env Scenarios.db_unreachable) "DB_PORT"
  ∧ ∃ cfg rest r,
      calls (snd (checkDatabase Scenarios.db_unreachable))
        = NewPgClient cfg :: PgConnect :: rest
      ∧ port cfg = Num 5432
      ∧ host cfg = env Scenarios.db_unreachable !! "DB_HOST"
      ∧ fst (checkDatabase Scenarios.db_unreachable) = Fulfilled (Some r)
      ∧ ¬ probe_skipped Database Scenarios.db_unreachable.
Proof.
  repeat (split; [vm_compute; reflexivity|]).
  apply (database_port_defaults_to_5432 Scenarios.db_unreachable);
    vm_compute; reflexivity.
Defined.

(** ** The reachability probe: one result per attempt *)

(** C5, as the code has it. In every execution of the reachability probe
    that is not skipped and in which [createConnection] returns a socket,
    exactly one of the three outcomes (connect, the 5000 ms timer, a
    connection error) produces the result: the first event with a callback
    wins, [resolve] is called once, the timer is off and the socket is
    destroyed afterwards, so no later event runs a callback.  When
    [createConnection] throws at once, the promise rejects and [resolve] is
    never called. *)
Theorem reachability_resolves_once w hostname port :
  dns_skip w hostname port = false →
  let a := checkDNSPort w hostname port in
  let testHost := dns_testHost w hostname in
  let testPort := dns_testPort w port in
  (∀ events,
     net_create_connection w testHost testPort 5000 = Emits events →
     finished (winner testHost testPort events) a
     ∧ single_outcome testHost testPort a
     ∧ ∀ later, event_loop testHost testPort later a = a)
  ∧ (∀ err,
       net_create_connection w testHost testPort 5000 = ThrowsSync err →
       promise a = Rejected err ∧ resolved_values (net_calls a) = []).
Proof.
  intros Hskip a testHost testPort.
  pose proof (checkDNSPort_cases w hostname port) as Hdns. cbn zeta in Hdns.
  fold a testHost testPort in Hdns. change timeout with 5000 in Hdns.
  destruct Hdns as [(Hs & _)|[(_ & err & Hnet & Hp & Hc)|(_ & events & Hnet & Hfin)]].
  - congruence.
  - split.
    + intros events Hev. congruence.
    + intros err' Herr. assert (err' = err) as -> by congruence.
      split; [exact Hp|]. rewrite Hc. reflexivity.
  - split.
    + intros events' Hev. assert (events' = events) as -> by congruence.
      split; [exact Hfin|]. split.
      * exists (winner testHost testPort events). split; [exact Hfin|].
        apply winner_outcome.
      * intros later. eapply event_loop_finished. exact Hfin.
    + intros err Herr. congruence.
Qed.

Lemma reachability_resolves_once_witness :
  let w := Scenarios.all_configured in
  let a := checkDNSPort w None None in
  dns_skip w None None = false
  ∧ net_create_connection w "example.com" (Num 443) 5000
    = Emits [SocketTimeout; TimerFires; SocketConnect]
  ∧ finished (timeout_result "example.com" (Num 443)) a
  ∧ single_outcome "example.com" (Num 443) a
  ∧ ∀ later, event_loop "example.com" (Num 443) later a = a.
Proof.
  intros w a.
  assert (Hskip : dns_skip w None None = false) by (vm_compute; reflexivity).
  assert (Hnet : net_create_connection w "example.com" (Num 443) 5000
                 = Emits [SocketTimeout; TimerFires; SocketConnect])
    by (vm_compute; reflexivity).
  split; [exact Hskip|]. split; [exact Hnet|].
  exact (proj1 (reachability_resolves_once w None None Hskip)
           [SocketTimeout; TimerFires; SocketConnect] Hnet).
Defined.

(** C5, as stated, fails when the port is not a valid one: the probe is
    not skipped, [createConnection] throws inside the executor, the promise
    rejects and none of the three outcomes produces a result. *)
Lemma bad_port_has_no_outcome :
  let w := Scenarios.dns_bad_port in
  dns_skip w None None = false
  ∧ dns_testPort w None = NaN
  ∧ ¬ single_outcome (dns_testHost w None) (dns_testPort w None)
        (checkDNSPort w None None).
Proof.
  split; [vm_compute; reflexivity|]. split; [vm_compute; reflexivity|].
  intros (r & (_ & _ & Hp & _) & _). vm_compute in Hp. discriminate.
Qed.

(** ** The database connection *)

(** On the success path the connection is closed before the probe returns. *)
Lemma checkDatabase_success_closes w r :
  fst (checkDatabase w) = Fulfilled (Some r) → status r = success →
  pg_conn (snd (checkDatabase w)) = Closed.
Proof.
  unfold checkDatabase, checkDatabase_body.
  destruct (_ || _); run_body; [discriminate|].
  split_matches; intros Hr Hs; injection Hr as <-; try discriminate Hs; reflexivity.
Qed.

(** A query that fails after the connection opened leaves it open: the
    [catch] block returns without calling [client.end()]. *)
Lemma checkDatabase_query_fault_leaks w fault :
  ¬ gate_skips Database w →
  on_connect (pg w (client_options (env w))) = None →
  on_query (pg w (client_options (env w))) "SELECT NOW() as current_time" = inl fault →
  pg_conn (snd (checkDatabase w)) = Open
  ∧ calls (snd (checkDatabase w))
    = [NewPgClient (client_options (env w)); PgConnect;
       PgQuery "SELECT NOW() as current_time"]
  ∧ ∃ r, fst (checkDatabase w) = Fulfilled (Some r) ∧ status r = error.
Proof.
  rewrite some_field_absent_Database_gate.
  unfold checkDatabase, checkDatabase_body.
  intros Hgate Hconnect Hquery.
  destruct (_ || _); [contradiction Hgate; reflexivity|].
  run_body. rewrite Hconnect. run_body. rewrite Hquery. run_body.
  repeat split. eexists. split; reflexivity.
Qed.

(** C6 fails on the code. With the database variables set, a server that
    accepts the connection and then fails the query makes the probe return
    its error result while the connection is still open: [client.end()] is
    called on the success path only. *)
Theorem query_fault_leaves_connection_open :
  checkDatabase Scenarios.db_query_fails =
    (Fulfilled (Some {|
       service := "PostgreSQL Database";
       status := error;
       message := "Database connection failed: canceling statement due to statement timeout";
       details := Some [("connected", JBool false);
                        ("issue", JStr "Connection refused or authentication failed")] |}),
     {| pg_conn := Open;
        calls := [NewPgClient (client_options (env Scenarios.db_query_fails));
                  PgConnect;
                  PgQuery "SELECT NOW() as current_time"] |}).
Proof. vm_compute. reflexivity. Qed.

(** ** [POST /api/health] *)

(** C7, as the code has it. A POST whose parsed body has a truthy [service]
    property is answered with status 501.  A POST whose body is not [null]
    and has no (or a falsy) [service] runs the batch and answers 503 if a
    check failed and 200 otherwise, with the same [status], [timestamp] and
    [checks] as GET would give, but without the [summary] field and without
    the cache headers. *)
Theorem POST_behaviour w completion now body service :
  completion ≡ₚ declaration_order →
  destructure_service body = inr service →
  (truthy_json service = true →
   ∃ requested,
     service = Some requested
     ∧ POST w completion now (inr body) = Fulfilled (POST_not_implemented requested)
     ∧ http_status (POST_not_implemented requested) = 501)
  ∧ (truthy_json service = false →
     ∃ checks (code : Z) (st checks_json summary : json),
       runAllHealthChecks w completion = Fulfilled checks
       ∧ code = (if existsb (has_status error) checks then 503 else 200)
       ∧ POST w completion now (inr body) = Fulfilled
           {| http_status := code; headers := [];
              body := JObj [("status", st); ("timestamp", JStr now);
                            ("checks", checks_json)] |}
       ∧ GET w completion now = Fulfilled
           {| http_status := code; headers := no_cache_headers;
              body := JObj [("status", st); ("timestamp", JStr now);
                            ("checks", checks_json); ("summary", summary)] |}).
Proof.
  intros Hperm Hbody. unfold POST, GET. rewrite Hbody. split.
  - intros Htruthy. rewrite Htruthy.
    destruct service as [requested|]; [|discriminate].
    exists requested. repeat split.
  - intros Hfalsy. rewrite Hfalsy.
    destruct (runAllHealthChecks_fulfilled w completion Hperm) as (results & _ & ->).
    exists (collect 0 results). do 4 eexists.
    split; [reflexivity|]. split; [reflexivity|]. split; reflexivity.
Qed.

Lemma POST_behaviour_witness :
  let w := Scenarios.db_unreachable in
  let order := [2; 4; 0; 1; 3]%nat in
  order ≡ₚ declaration_order
  ∧ destructure_service (JObj [("service", JStr "database")]) = inr (Some (JStr "database"))
  ∧ destructure_service (JObj [("verbose", JBool true)]) = inr None
  ∧ (∃ requested,
       Some (JStr "database") = Some requested
       ∧ POST w order "T" (inr (JObj [("service", JStr "database")]))
         = Fulfilled (POST_not_implemented requested)
       ∧ http_status (POST_not_implemented requested) = 501)
  ∧ (∃ checks (code : Z) (st checks_json summary : json),
       runAllHealthChecks w order = Fulfilled checks
       ∧ code = (if existsb (has_status error) checks then 503 else 200)
       ∧ POST w order "T" (inr (JObj [("verbose", JBool true)])) = Fulfilled
           {| http_status := code; headers := [];
              body := JObj [("status", st); ("timestamp", JStr "T");
                            ("checks", checks_json)] |}
       ∧ GET w order "T" = Fulfilled
           {| http_status := code; headers := no_cache_headers;
              body := JObj [("status", st); ("timestamp", JStr "T");
                            ("checks", checks_json); ("summary", summary)] |}).
Proof.
  intros w order.
  assert (Hperm : order ≡ₚ declaration_order)
    by (refine (bool_decide_unpack _ _); vm_compute; exact I).
  split; [exact Hperm|]. split; [reflexivity|]. split; [reflexivity|]. split.
  - apply (proj1 (POST_behaviour w order "T" (JObj [("service", JStr "database")])
                    (Some (JStr "database")) Hperm eq_refl)).
    reflexivity.
  - apply (proj2 (POST_behaviour w order "T" (JObj [("verbose", JBool true)])
                    None Hperm eq_refl)).
    reflexivity.
Defined.

(** C7, as stated, fails in its second half: for a body that names no
    service the POST report has the keys status, timestamp and checks only;
    the summary that GET sends is missing. *)
Lemma POST_report_has_no_summary :
  let w := Scenarios.db_unreachable in
  ∃ post get,
    POST w declaration_order "T" (inr (JObj [])) = Fulfilled post
    ∧ GET w declaration_order "T" = Fulfilled get
    ∧ object_keys (body get) = ["status"; "timestamp"; "checks"; "summary"]
    ∧ object_keys (body post) = ["status"; "timestamp"; "checks"]
    ∧ object_keys (body post) ≠ object_keys (body get).
Proof.
  do 2 eexists. split; [vm_compute; reflexivity|]. split; [vm_compute; reflexivity|].
  split; [reflexivity|]. split; [reflexivity|]. simpl. discriminate.
Qed.

(** A body of [null] names no service either, and is answered with 400. *)
Lemma POST_null_body_is_invalid w completion now :
  ∃ response, POST w completion now (inr JNull) = Fulfilled response
              ∧ http_status response = 400.
Proof. eexists. split; reflexivity. Qed.

(** ** The isolation of a rejected promise, for any five promises *)

Lemma runAllHealthChecks_with_isolates promises completion i reason :
  Forall (λ p, p ≠ Pending) promises →
  (∀ k, (k < length promises)%nat → k ∈ completion) →
  promises !! i = Some (Rejected reason) →
  ∃ checks,
    runAllHealthChecks_with completion promises = Fulfilled checks
    ∧ rejected_result i reason ∈ checks
    ∧ ∀ j value, promises !! j = Some (Fulfilled (Some value)) → value ∈ checks.
Proof.
  intros Hsettled Hcover Hi.
  destruct (settled_of_total _ Hsettled) as [results Hm].
  exists (collect 0 results). split; [|split].
  - apply runAllHealthChecks_with_fulfilled; assumption.
  - eapply collect_rejected; eassumption.
  - intros j value Hj. eapply collect_fulfilled; eassumption.
Qed.

(** ** Scenarios of the specification *)

Example parseInt_examples :
  parseInt "5432" = Num 5432 ∧ parseInt "abc" = NaN
  ∧ parseInt " 80px" = Num 80 ∧ parseInt "-0x1F" = Num (-31).
Proof. repeat split. Qed.

(** An empty string counts as not set. *)
Example empty_string_is_absent :
  is_absent (env Scenarios.db_partial) "DB_PASSWORD"
  ∧ env Scenarios.db_partial !! "DB_PASSWORD" = Some "".
Proof. split; vm_compute; reflexivity. Qed.

(** Only the listen port is configured: one successful entry, 200. *)
Example only_port_configured :
  GET Scenarios.port_only declaration_order "T" = Fulfilled
    {| http_status := 200;
       headers := no_cache_headers;
       body := JObj
         [("status", JStr "healthy");
          ("timestamp", JStr "T");
          ("checks", JArr [json_of_result (checkPort Scenarios.port_only)]);
          ("summary", JObj [("total", count 1); ("passed", count 1);
                            ("failed", count 0)])] |}
  ∧ status (checkPort Scenarios.port_only) = success.
Proof. split; vm_compute; reflexivity. Qed.

(** Database variables point at a host that refuses: two entries, 503. *)
Example database_unreachable :
  ∃ database_result response,
    runAllHealthChecks Scenarios.db_unreachable declaration_order
      = Fulfilled [checkPort Scenarios.db_unreachable; database_result]
    ∧ service database_result = "PostgreSQL Database"
    ∧ status database_result = error
    ∧ GET Scenarios.db_unreachable declaration_order "T" = Fulfilled response
    ∧ http_status response = 503
    ∧ get_field "status" (match body response with JObj f => f | _ => [] end)
      = Some (JStr "unhealthy").
Proof. do 2 eexists. repeat split; vm_compute; reflexivity. Qed.

Import Behaviour.

(** ** The database probe, path by path *)

(** Enters the body of [checkDatabase] past a gate known to be open. *)
Ltac open_database Hgate :=
  rewrite some_field_absent_Database_gate in Hgate;
  unfold checkDatabase, checkDatabase_body;
  destruct (_ || _); [contradiction Hgate; reflexivity|];
  run_body.

(** X1. The three async probes never reject: whatever the database, S3 or
    SES do, the [catch] block turns the fault into a returned result. *)
Theorem async_probes_never_reject w :
  ∃ database s3 ses,
    fst (checkDatabase w) = Fulfilled database
    ∧ fst (checkS3 w) = Fulfilled s3
    ∧ fst (checkSES w) = Fulfilled ses.
Proof.
  destruct (checkDatabase_cases w) as [->|(? & -> & _)];
  destruct (checkS3_cases w) as [->|(? & -> & _)];
  destruct (checkSES_cases w) as [->|(? & -> & _)];
  do 3 eexists; repeat split; reflexivity.
Qed.

(** X2. The database probe talks to its client in one fixed order and at
    most once per step: the calls it makes are always a prefix of
    new Client, connect, query, end. *)
Theorem checkDatabase_calls_prefix w :
  calls (snd (checkDatabase w)) `prefix_of` pg_protocol (client_options (env w)).
Proof.
  unfold checkDatabase, checkDatabase_body, pg_protocol.
  destruct (_ || _); run_body.
  - apply prefix_nil.
  - split_matches; simpl;
      repeat first [apply prefix_cons | apply prefix_nil | reflexivity].
Qed.

(** X3. When [client.connect()] rejects, the probe returns the error
    result with the fault's message, and the only calls it has made are
    [new Client] and [connect]: it sends no query and never calls [end]. *)
Theorem checkDatabase_connect_failure w fault :
  ¬ gate_skips Database w →
  on_connect (pg w (client_options (env w))) = Some fault →
  fst (checkDatabase w) =
    Fulfilled (Some {|
      service := "PostgreSQL Database";
      status := error;
      message := "Database connection failed: " +:+ errorMessage fault;
      details := Some [("connected", JBool false);
                       ("issue", JStr "Connection refused or authentication failed")] |})
  ∧ calls (snd (checkDatabase w)) = [NewPgClient (client_options (env w)); PgConnect]
  ∧ ¬ (PgQuery "SELECT NOW() as current_time" ∈ calls (snd (checkDatabase w)))
  ∧ ¬ (PgEnd ∈ calls (snd (checkDatabase w))).
Proof.
  intros Hgate Hconnect. open_database Hgate.
  rewrite Hconnect. cbn [fst snd calls].
  split; [reflexivity|]. split; [reflexivity|].
  split; intros Hin;
    repeat (apply elem_of_cons in Hin as [Hin|Hin]; [discriminate Hin|]);
    apply elem_of_nil in Hin; contradiction.
Qed.

Lemma checkDatabase_connect_failure_witness :
  ¬ gate_skips Database Scenarios.db_unreachable
  ∧ on_connect (pg Scenarios.db_unreachable (client_options (env Scenarios.db_unreachable)))
    = Some (ErrorObj "connect ECONNREFUSED 10.0.0.9:5432" (Some "ECONNREFUSED"))
  ∧ calls (snd (checkDatabase Scenarios.db_unreachable))
    = [NewPgClient (client_options (env Scenarios.db_unreachable)); PgConnect].
Proof.
  assert (Hgate : ¬ gate_skips Database Scenarios.db_unreachable).
  { rewrite some_field_absent_Database_gate. vm_compute. discriminate. }
  split; [exact Hgate|]. split; [reflexivity|].
  exact (proj1 (proj2 (checkDatabase_connect_failure Scenarios.db_unreachable _
                         Hgate eq_refl))).
Defined.

(** X4. The database probe reports success exactly when it was not
    skipped, the connection opened, the query returned at least one row and
    [end] resolved; it then reports the first row's time, has made the four
    calls and has closed the connection. *)
Theorem checkDatabase_success_iff w :
  let cfg := client_options (env w) in
  (∃ r, fst (checkDatabase w) = Fulfilled (Some r) ∧ status r = success)
  ↔ ∃ row rest,
      ¬ gate_skips Database w
      ∧ on_connect (pg w cfg) = None
      ∧ on_query (pg w cfg) "SELECT NOW() as current_time" = inr (row :: rest)
      ∧ on_end (pg w cfg) = None
      ∧ checkDatabase w =
          (Fulfilled (Some {|
             service := "PostgreSQL Database";
             status := success;
             message := "Successfully connected to database";
             details := Some [("connected", JBool true);
                              ("responseTime", JStr "Fast");
                              ("currentTime", current_time row)] |}),
           {| pg_conn := Closed; calls := pg_protocol cfg |}).
Proof.
  intros cfg. subst cfg. split.
  - pose proof (some_field_absent_Database_gate w) as Hgate.
    unfold checkDatabase, checkDatabase_body.
    destruct (_ || _); run_body; [intros (r & Hr & _); discriminate|].
    assert (Hopen : ¬ gate_skips Database w)
      by (intros Hskip; apply Hgate in Hskip; discriminate).
    clear Hgate.
    split_matches; intros (res & Hres & Hs); injection Hres as <-;
      try discriminate Hs.
    do 2 eexists. split; [exact Hopen|]. repeat split; reflexivity.
  - intros (row & rest & _ & _ & _ & _ & ->). eexists. split; reflexivity.
Qed.

(** X5. A query that succeeds with no rows makes the probe report an
    error, although the server answered: reading the first row throws.  The
    connection was closed before that. *)
Theorem checkDatabase_empty_rows w :
  ¬ gate_skips Database w →
  on_connect (pg w (client_options (env w))) = None →
  on_query (pg w (client_options (env w))) "SELECT NOW() as current_time" = inr [] →
  on_end (pg w (client_options (env w))) = None →
  (∃ r, fst (checkDatabase w) = Fulfilled (Some r) ∧ status r = error
        ∧ details r = Some [("connected", JBool false);
                            ("issue", JStr "Connection refused or authentication failed")])
  ∧ pg_conn (snd (checkDatabase w)) = Closed
  ∧ calls (snd (checkDatabase w)) = pg_protocol (client_options (env w)).
Proof.
  intros Hgate Hconnect Hquery Hend. open_database Hgate.
  rewrite Hconnect. run_body. rewrite Hquery. run_body. rewrite Hend. run_body.
  split; [|split; reflexivity]. eexists. repeat split.
Qed.

Lemma checkDatabase_empty_rows_witness :
  let w := Cases.db_empty_rows in
  ¬ gate_skips Database w
  ∧ on_query (pg w (client_options (env w))) "SELECT NOW() as current_time" = inr []
  ∧ (∃ r, fst (checkDatabase w) = Fulfilled (Some r) ∧ status r = error
          ∧ details r = Some [("connected", JBool false);
                              ("issue", JStr "Connection refused or authentication failed")])
  ∧ pg_conn (snd (checkDatabase w)) = Closed
  ∧ calls (snd (checkDatabase w)) = pg_protocol (client_options (env w)).
Proof.
  intros w.
  assert (Hgate : ¬ gate_skips Database w).
  { rewrite some_field_absent_Database_gate. vm_compute. discriminate. }
  split; [exact Hgate|]. split; [reflexivity|].
  exact (checkDatabase_empty_rows w Hgate eq_refl eq_refl eq_refl).
Defined.

(** ** The S3 and SES probes *)

(** X6. A configured S3 probe creates one client for AWS_REGION (or
    us-east-1), sends exactly one HeadBucket for the configured bucket, and
    reports success exactly when that request resolves; a fault becomes the
    error result carrying the fault's message. *)
Theorem checkS3_behaviour w :
  is_set (env w) "S3_BUCKET_NAME" →
  let region := or_else (env w !! "AWS_REGION") "us-east-1" in
  ∃ bucket r,
    env w !! "S3_BUCKET_NAME" = Some bucket
    ∧ checkS3 w = (Fulfilled (Some r),
                   {| pg_conn := NotConnected;
                      calls := [NewS3Client region; S3HeadBucket bucket] |})
    ∧ service r = "AWS S3"
    ∧ (status r = success ↔ s3_head_bucket w region bucket = None)
    ∧ (∀ fault, s3_head_bucket w region bucket = Some fault →
         status r = error ∧ message r = "S3 access failed: " +:+ errorMessage fault).
Proof.
  unfold is_set. intros Hset.
  unfold checkS3, checkS3_body. rewrite Hset. simpl negb. cbv iota.
  destruct (env w !! "S3_BUCKET_NAME") as [bucket|] eqn:Hbucket; [|discriminate].
  simpl in Hset. exists bucket.
  run_body. destruct (String.eqb bucket "") eqn:Hempty; [discriminate|].
  run_body.
  destruct (s3_head_bucket w _ bucket) as [fault|] eqn:Hsend; run_body;
    eexists; (split; [reflexivity|]); (split; [reflexivity|]);
    (split; [reflexivity|]); simpl; split.
  - split; discriminate.
  - intros fault' [= <-]. split; reflexivity.
  - split; reflexivity.
  - intros fault' Hf. discriminate.
Qed.

Lemma checkS3_behaviour_witness :
  is_set (env Cases.aws_denied_pending) "S3_BUCKET_NAME"
  ∧ ∃ bucket r,
      env Cases.aws_denied_pending !! "S3_BUCKET_NAME" = Some bucket
      ∧ checkS3 Cases.aws_denied_pending
        = (Fulfilled (Some r),
           {| pg_conn := NotConnected;
              calls := [NewS3Client "eu-west-1"; S3HeadBucket bucket] |})
      ∧ service r = "AWS S3"
      ∧ (status r = success
         ↔ s3_head_bucket Cases.aws_denied_pending "eu-west-1" bucket = None)
      ∧ (∀ fault, s3_head_bucket Cases.aws_denied_pending "eu-west-1" bucket = Some fault →
           status r = error ∧ message r = "S3 access failed: " +:+ errorMessage fault).
Proof.
  assert (Hset : is_set (env Cases.aws_denied_pending) "S3_BUCKET_NAME")
    by (vm_compute; reflexivity).
  split; [exact Hset|].
  exact (checkS3_behaviour Cases.aws_denied_pending Hset).
Defined.

(** X7. When SES answers, the SES probe reports success whatever the
    verification state is: [emailVerified] is true exactly when the answer
    holds the status "Success" for the sender, and false also when the
    sender or the whole attribute map is missing. *)
Theorem checkSES_reports_verification w email response :
  is_set (env w) "SES_FROM_EMAIL" →
  env w !! "SES_FROM_EMAIL" = Some email →
  ses_get_identity_verification w (or_else (env w !! "AWS_REGION") "us-east-1") [email]
    = inr response →
  ∃ verified : bool,
    fst (checkSES w) = Fulfilled (Some {|
      service := "AWS SES";
      status := success;
      message := "Successfully connected to SES";
      details := Some [("accessible", JBool true);
                       ("emailVerified", JBool verified)] |})
    ∧ (verified = true ↔
       ∃ attrs identity,
         VerificationAttributes response = Some attrs
         ∧ attrs !! email = Some identity
         ∧ VerificationStatus identity = Some "Success").
Proof.
  unfold is_set. intros Hset Hemail Hsend.
  unfold checkSES, checkSES_body. rewrite Hset. simpl negb. cbv iota.
  rewrite Hemail in *. simpl in Hset.
  run_body. destruct (String.eqb email "") eqn:Hempty; [discriminate|].
  run_body. rewrite Hsend. run_body.
  eexists. split; [reflexivity|].
  rewrite bool_decide_eq_true. split.
  - intros Hv.
    destruct (VerificationAttributes response) as [attrs|]; [|discriminate].
    simpl in Hv. destruct (attrs !! email) as [identity|] eqn:Hid; [|discriminate].
    simpl in Hv. eauto.
  - intros (attrs & identity & -> & Hid & Hstatus). simpl. rewrite Hid. exact Hstatus.
Qed.

Lemma checkSES_reports_verification_witness :
  let w := Cases.aws_denied_pending in
  is_set (env w) "SES_FROM_EMAIL"
  ∧ env w !! "SES_FROM_EMAIL" = Some "ops@example.com"
  ∧ fst (checkSES w) = Fulfilled (Some {|
      service := "AWS SES";
      status := success;
      message := "Successfully connected to SES";
      details := Some [("accessible", JBool true);
                       ("emailVerified", JBool false)] |})
  ∧ ∃ verified : bool,
      fst (checkSES w) = Fulfilled (Some {|
        service := "AWS SES";
        status := success;
        message := "Successfully connected to SES";
        details := Some [("accessible", JBool true);
                         ("emailVerified", JBool verified)] |})
      ∧ (verified = true ↔
         ∃ attrs identity,
           Some ({[ "ops@example.com" := {| VerificationStatus := Some "Pending" |} ]}
                 : gmap string IdentityVerificationAttributes) = Some attrs
           ∧ attrs !! "ops@example.com" = Some identity
           ∧ VerificationStatus identity = Some "Success").
Proof.
  intros w.
  assert (Hset : is_set (env w) "SES_FROM_EMAIL") by (vm_compute; reflexivity).
  assert (Hemail : env w !! "SES_FROM_EMAIL" = Some "ops@example.com")
    by (vm_compute; reflexivity).
  split; [exact Hset|]. split; [exact Hemail|]. split; [vm_compute; reflexivity|].
  exact (checkSES_reports_verification w "ops@example.com"
           {| VerificationAttributes :=
                Some {[ "ops@example.com" := {| VerificationStatus := Some "Pending" |} ]} |}
           Hset Hemail eq_refl).
Defined.

(** ** The batch as a whole *)

Lemma services_NoDup : NoDup services.
Proof. refine (bool_decide_unpack _ _). vm_compute. exact I. Qed.

(** X8. Whatever is configured and whatever the dependencies do, the
    returned list starts with the self-report of the application port, and
    that entry is a success. *)
Theorem self_report_always_first w completion :
  completion ≡ₚ declaration_order →
  ∃ rest,
    runAllHealthChecks w completion = Fulfilled (checkPort w :: rest)
    ∧ status (checkPort w) = success
    ∧ service (checkPort w) = "Application Port".
Proof.
  intros Hperm.
  destruct (runAllHealthChecks_fulfilled w completion Hperm) as (results & Hm & ->).
  apply mapM_Some in Hm. unfold probes in Hm.
  inversion Hm as [|p r ps results' Hhead Htail]; subst.
  simpl in Hhead. injection Hhead as <-.
  exists (collect 1 results'). repeat split.
Qed.

Lemma self_report_always_first_witness :
  [4; 1; 2; 3; 0]%nat ≡ₚ declaration_order
  ∧ ∃ rest,
      runAllHealthChecks Scenarios.db_down_bad_port [4; 1; 2; 3; 0]%nat
        = Fulfilled (checkPort Scenarios.db_down_bad_port :: rest)
      ∧ status (checkPort Scenarios.db_down_bad_port) = success
      ∧ service (checkPort Scenarios.db_down_bad_port) = "Application Port".
Proof.
  assert (Hperm : [4; 1; 2; 3; 0]%nat ≡ₚ declaration_order)
    by (refine (bool_decide_unpack _ _); vm_compute; exact I).
  split; [exact Hperm|].
  exact (self_report_always_first Scenarios.db_down_bad_port _ Hperm).
Defined.

(** X9. A returned list has between one and five entries, and no service
    name occurs twice in it. *)
Theorem checks_bounded_and_distinct w completion checks :
  runAllHealthChecks w completion = Fulfilled checks →
  (1 ≤ length checks ≤ 5)%nat ∧ NoDup (service <$> checks).
Proof.
  intros Hrun.
  apply runAllHealthChecks_with_inv in Hrun as (results & Hm & ->).
  pose proof (collect_names w results Hm) as Hnames.
  pose proof (reported_names_sublist (probes w)) as Hsub.
  rewrite <- Hnames in Hsub.
  split; [split|].
  - apply mapM_Some in Hm. unfold probes in Hm.
    inversion Hm as [|p r ps results' Hhead Htail]; subst.
    simpl in Hhead. injection Hhead as <-. simpl. lia.
  - apply sublist_length in Hsub. rewrite length_fmap in Hsub. exact Hsub.
  - eapply sublist_NoDup; [apply services_NoDup|exact Hsub].
Qed.

Lemma checks_bounded_and_distinct_witness :
  ∃ checks,
    runAllHealthChecks Scenarios.all_configured [0; 1; 2; 3; 4]%nat = Fulfilled checks
    ∧ length checks = 5%nat
    ∧ (1 ≤ length checks ≤ 5)%nat ∧ NoDup (service <$> checks).
Proof.
  eexists. split; [vm_compute; reflexivity|]. split; [reflexivity|].
  apply (checks_bounded_and_distinct Scenarios.all_configured [0; 1; 2; 3; 4]%nat).
  vm_compute. reflexivity.
Defined.

Lemma existsb_error_cases checks :
  (existsb (has_status error) checks = false ∧ Forall (λ r, status r = success) checks)
  ∨ (existsb (has_status error) checks = true ∧ Exists (λ r, status r = error) checks).
Proof.
  induction checks as [|r checks IH]; simpl.
  - left. split; [reflexivity|constructor].
  - destruct r as [name [] msg d]; simpl.
    + destruct IH as [[-> Hall]|[-> Hex]].
      * left. split; [reflexivity|]. constructor; [reflexivity|exact Hall].
      * right. split; [reflexivity|]. apply Exists_cons_tl, Hex.
    + right. split; [reflexivity|]. apply Exists_cons_hd. reflexivity.
Qed.

(** X10. Once the five probes have settled, GET always answers with the
    report, never with the 500 failure body: the status is 200 with
    "healthy" when every check succeeded and 503 with "unhealthy" when some
    check is an error. *)
Theorem GET_answers_200_or_503 w completion now :
  completion ≡ₚ declaration_order →
  ∃ checks response,
    runAllHealthChecks w completion = Fulfilled checks
    ∧ GET w completion now = Fulfilled response
    ∧ headers response = no_cache_headers
    ∧ ((http_status response = 200
        ∧ get_field "status" (fields_of (body response)) = Some (JStr "healthy")
        ∧ Forall (λ r, status r = success) checks)
       ∨ (http_status response = 503
          ∧ get_field "status" (fields_of (body response)) = Some (JStr "unhealthy")
          ∧ Exists (λ r, status r = error) checks)).
Proof.
  intros Hperm.
  destruct (runAllHealthChecks_fulfilled w completion Hperm) as (results & _ & Hrun).
  exists (collect 0 results), (GET_report (collect 0 results) now).
  split; [exact Hrun|]. unfold GET. rewrite Hrun. split; [reflexivity|].
  split; [reflexivity|].
  unfold GET_report.
  destruct (existsb_error_cases (collect 0 results)) as [[-> Hall]|[-> Hex]].
  - left. repeat split. exact Hall.
  - right. repeat split. exact Hex.
Qed.

Lemma GET_answers_200_or_503_witness :
  [2; 4; 0; 1; 3]%nat ≡ₚ declaration_order
  ∧ ∃ checks response,
      runAllHealthChecks Scenarios.db_unreachable [2; 4; 0; 1; 3]%nat = Fulfilled checks
      ∧ GET Scenarios.db_unreachable [2; 4; 0; 1; 3]%nat "T" = Fulfilled response
      ∧ headers response = no_cache_headers
      ∧ ((http_status response = 200
          ∧ get_field "status" (fields_of (body response)) = Some (JStr "healthy")
          ∧ Forall (λ r, status r = success) checks)
         ∨ (http_status response = 503
            ∧ get_field "status" (fields_of (body response)) = Some (JStr "unhealthy")
            ∧ Exists (λ r, status r = error) checks)).
Proof.
  assert (Hperm : [2; 4; 0; 1; 3]%nat ≡ₚ declaration_order)
    by (refine (bool_decide_unpack _ _); vm_compute; exact I).
  split; [exact Hperm|].
  exact (GET_answers_200_or_503 Scenarios.db_unreachable _ "T" Hperm).
Defined.

Lemma nothing_configured_skips w p : nothing_configured w → probe_skipped p w.
Proof.
  intros Hnone. apply gate_skips_iff_skipped.
  destruct p; unfold gate_skips; try apply Hnone.
  - exists "DB_HOST". split; [apply list_elem_of_here|].
    apply (Hnone Database). apply list_elem_of_here.
  - exists "S3_BUCKET_NAME". split; [apply list_elem_of_here|].
    apply (Hnone ObjectStore). apply list_elem_of_here.
  - exists "SES_FROM_EMAIL". split; [apply list_elem_of_here|].
    apply (Hnone Email). apply list_elem_of_here.
Qed.

(** X11. With none of the database, S3, SES and reachability variables
    set, the batch returns the self-report alone and GET answers 200,
    "healthy", with the summary 1 / 1 / 0; no dependency is contacted. *)
Theorem nothing_configured_report w completion now :
  nothing_configured w →
  completion ≡ₚ declaration_order →
  runAllHealthChecks w completion = Fulfilled [checkPort w]
  ∧ GET w completion now = Fulfilled
      {| http_status := 200;
         headers := no_cache_headers;
         body := JObj [("status", JStr "healthy");
                       ("timestamp", JStr now);
                       ("checks", JArr [json_of_result (checkPort w)]);
                       ("summary", JObj [("total", count 1); ("passed", count 1);
                                         ("failed", count 0)])] |}
  ∧ calls (snd (checkDatabase w)) = []
  ∧ calls (snd (checkS3 w)) = []
  ∧ calls (snd (checkSES w)) = []
  ∧ net_calls (checkDNSPort w None None) = [].
Proof.
  intros Hnone Hperm.
  pose proof (nothing_configured_skips w Database Hnone) as Hdb.
  pose proof (nothing_configured_skips w ObjectStore Hnone) as Hs3.
  pose proof (nothing_configured_skips w Email Hnone) as Hses.
  pose proof (nothing_configured_skips w Reachability Hnone) as [Hdns Hcalls].
  simpl in Hdb, Hs3, Hses.
  assert (Hrun : runAllHealthChecks w completion = Fulfilled [checkPort w]).
  { unfold runAllHealthChecks.
    rewrite (runAllHealthChecks_with_fulfilled completion (probes w)
               [PromiseFulfilledResult (Some (checkPort w));
                PromiseFulfilledResult None; PromiseFulfilledResult None;
                PromiseFulfilledResult None; PromiseFulfilledResult None]).
    - reflexivity.
    - apply covers_declaration_order, Hperm.
    - unfold probes. rewrite Hdb, Hs3, Hses, Hdns. reflexivity. }
  split; [exact Hrun|]. split.
  - unfold GET. rewrite Hrun. reflexivity.
  - rewrite Hdb, Hs3, Hses, Hcalls. repeat split.
Qed.

Lemma nothing_configured_report_witness :
  nothing_configured Scenarios.port_only
  ∧ [3; 1; 4; 0; 2]%nat ≡ₚ declaration_order
  ∧ runAllHealthChecks Scenarios.port_only [3; 1; 4; 0; 2]%nat
    = Fulfilled [checkPort Scenarios.port_only].
Proof.
  assert (Hnone : nothing_configured Scenarios.port_only).
  { intros p k Hk. destruct p; simpl in Hk;
      repeat (apply elem_of_cons in Hk as [->|Hk]; [vm_compute; reflexivity|]);
      apply elem_of_nil in Hk; contradiction. }
  assert (Hperm : [3; 1; 4; 0; 2]%nat ≡ₚ declaration_order)
    by (refine (bool_decide_unpack _ _); vm_compute; exact I).
  split; [exact Hnone|]. split; [exact Hperm|].
  exact (proj1 (nothing_configured_report Scenarios.port_only _ "T" Hnone Hperm)).
Defined.

(** ** The status codes of [POST /api/health] *)

Lemma destructure_service_fields body :
  body ≠ JNull →
  destructure_service body = inr (get_field "service" (fields_of body)).
Proof. destruct body; intros Hnull; try reflexivity. contradiction. Qed.

(** X12. Once the probes have settled, POST answers 400 exactly when the
    body could not be parsed or is [null], 501 exactly when the parsed body
    has a truthy [service], and otherwise the status GET would give. *)
Theorem POST_status_codes w completion now request :
  completion ≡ₚ declaration_order →
  ∃ response get,
    POST w completion now request = Fulfilled response
    ∧ GET w completion now = Fulfilled get
    ∧ (http_status response = 400
       ↔ (∃ err, request = inl err) ∨ request = inr JNull)
    ∧ (http_status response = 501
       ↔ ∃ body, request = inr body
                 ∧ truthy_json (get_field "service" (fields_of body)) = true)
    ∧ (http_status response ≠ 400 → http_status response ≠ 501 →
       http_status response = http_status get).
Proof.
  intros Hperm.
  destruct (runAllHealthChecks_fulfilled w completion Hperm) as (results & _ & Hrun).
  unfold POST, GET. rewrite Hrun.
  destruct request as [err|body].
  - do 2 eexists. split; [reflexivity|]. split; [reflexivity|]. simpl. split; [|split].
    + split; [eauto|reflexivity].
    + split; [discriminate|]. intros (body & Hb & _). discriminate.
    + intros H. contradiction H. reflexivity.
  - assert (Hcase : body = JNull ∨ body ≠ JNull)
      by (destruct body; first [left; reflexivity | right; discriminate]).
    destruct Hcase as [->|Hnull].
    + do 2 eexists. split; [reflexivity|]. split; [reflexivity|]. simpl. split; [|split].
      * split; [eauto|reflexivity].
      * split; [discriminate|]. intros (body & [= <-] & Ht). discriminate.
      * intros H. contradiction H. reflexivity.
    + rewrite (destructure_service_fields body Hnull).
      destruct (truthy_json (get_field "service" (fields_of body))) eqn:Htruthy.
      * do 2 eexists. split; [reflexivity|]. split; [reflexivity|]. simpl.
        split; [|split].
        -- split; [discriminate|]. intros [(err & Herr)|Hb]; congruence.
        -- split; [eauto|reflexivity].
        -- intros _ H. contradiction H. reflexivity.
      * do 2 eexists. split; [reflexivity|]. split; [reflexivity|].
        unfold POST_report, GET_report. simpl.
        destruct (existsb (has_status error) (collect 0 results));
          (split; [|split]).
        all: try (split; [discriminate|]).
        all: try (intros [(err & Herr)|Hb]; congruence).
        all: try (intros (body' & [= <-] & Ht); congruence).
        all: reflexivity.
Qed.

Lemma POST_status_codes_witness :
  let order := [2; 4; 0; 1; 3]%nat in
  order ≡ₚ declaration_order
  ∧ ∃ response get,
      POST Scenarios.db_unreachable order "T" (inr (JObj [("service", JStr "")]))
        = Fulfilled response
      ∧ GET Scenarios.db_unreachable order "T" = Fulfilled get
      ∧ http_status response = 503
      ∧ (http_status response ≠ 400 → http_status response ≠ 501 →
         http_status response = http_status get).
Proof.
  intros order.
  assert (Hperm : order ≡ₚ declaration_order)
    by (refine (bool_decide_unpack _ _); vm_compute; exact I).
  split; [exact Hperm|].
  destruct (POST_status_codes Scenarios.db_unreachable order "T"
              (inr (JObj [("service", JStr "")])) Hperm)
    as (response & get & Hpost & Hget & _ & _ & Hsame).
  exists response, get. split; [exact Hpost|]. split; [exact Hget|].
  split; [|exact Hsame].
  vm_compute in Hpost. injection Hpost as <-. reflexivity.
Defined.

(** X13. A POST that names a service is answered without running any
    check: the 501 response is the same in every world, for every
    completion order and clock, and it echoes the requested service. *)
Theorem POST_named_service_runs_nothing w1 w2 completion1 completion2 now1 now2 body :
  truthy_json (get_field "service" (fields_of body)) = true →
  ∃ requested,
    get_field "service" (fields_of body) = Some requested
    ∧ POST w1 completion1 now1 (inr body) = Fulfilled (POST_not_implemented requested)
    ∧ POST w2 completion2 now2 (inr body) = Fulfilled (POST_not_implemented requested)
    ∧ get_field "requestedService" (fields_of (Route.body (POST_not_implemented requested)))
      = Some requested.
Proof.
  intros Htruthy.
  assert (Hnull : body ≠ JNull) by (intros ->; discriminate).
  destruct (get_field "service" (fields_of body)) as [requested|] eqn:Hservice;
    [|discriminate].
  exists requested. split; [reflexivity|].
  unfold POST. rewrite (destructure_service_fields body Hnull), Hservice, Htruthy.
  repeat split.
Qed.

Lemma POST_named_service_runs_nothing_witness :
  let body := JObj [("service", JStr "database")] in
  truthy_json (get_field "service" (fields_of body)) = true
  ∧ ∃ requested,
      get_field "service" (fields_of body) = Some requested
      ∧ POST Scenarios.port_only [] "T1" (inr body)
        = Fulfilled (POST_not_implemented requested)
      ∧ POST Scenarios.all_configured [4; 0]%nat "T2" (inr body)
        = Fulfilled (POST_not_implemented requested)
      ∧ get_field "requestedService"
          (fields_of (Route.body (POST_not_implemented requested)))
        = Some requested.
Proof.
  intros body. split; [reflexivity|].
  apply (POST_named_service_runs_nothing Scenarios.port_only Scenarios.all_configured
           [] [4; 0]%nat "T1" "T2" body).
  reflexivity.
Defined.

(** ** The reachability probe: target, cleanup and verdict *)

Lemma deliver_racing_calls testHost testPort a ev r :
  racing a → outcome testHost testPort ev = Some r →
  ∃ a', deliver testHost testPort ev a = Some a' ∧ finished r a'
        ∧ net_calls a' = net_calls a ++ cleanup ev ++ [Resolve r].
Proof.
  intros Ha Hout.
  destruct (deliver_racing testHost testPort a ev r Ha Hout) as (a' & Hd & Hfin).
  exists a'. split; [exact Hd|]. split; [exact Hfin|].
  destruct Ha as (Htimer & Hsock & _ & _).
  destruct ev; simpl in Hout; try discriminate; injection Hout as <-;
    simpl in Hd; rewrite ?Htimer, ?Hsock in Hd; injection Hd as <-;
    simpl; rewrite <- ?app_assoc; reflexivity.
Qed.

Lemma event_loop_racing_calls testHost testPort events : ∀ a,
  racing a →
  net_calls (event_loop testHost testPort (events ++ [TimerFires]) a)
  = net_calls a ++ cleanup (first_callback events)
    ++ [Resolve (winner testHost testPort events)].
Proof.
  induction events as [|ev events IH]; intros a Ha.
  - destruct (deliver_racing_calls testHost testPort a TimerFires _ Ha eq_refl)
      as (a' & Hd & _ & Hcalls).
    simpl app. cbn [event_loop winner first_callback]. rewrite Hd. exact Hcalls.
  - simpl app. cbn [event_loop winner].
    destruct (outcome testHost testPort ev) as [r|] eqn:Hout.
    + destruct (deliver_racing_calls testHost testPort a ev r Ha Hout)
        as (a' & Hd & Hfin & Hcalls).
      rewrite Hd. simpl. rewrite (event_loop_finished testHost testPort r _ a' Hfin).
      rewrite Hcalls. destruct ev; try discriminate; reflexivity.
    + destruct ev; try discriminate.
      rewrite (deliver_racing_no_listener testHost testPort a Ha). simpl.
      apply IH, Ha.
Qed.

(** X14. A host and a non-zero port given at the call override the
    environment completely: the probe is not skipped even with nothing
    configured, and it connects to exactly that host and port with the
    5000 ms timeout, whatever DNS_CHECK_HOST and DNS_CHECK_PORT say. *)
Theorem checkDNSPort_explicit_target w h z :
  h ≠ "" → z ≠ 0 →
  dns_skip w (Some h) (Some (Num z)) = false
  ∧ dns_testHost w (Some h) = h
  ∧ dns_testPort w (Some (Num z)) = Num z
  ∧ ∃ rest, net_calls (checkDNSPort w (Some h) (Some (Num z)))
            = CreateConnection h (Num z) 5000 :: rest.
Proof.
  intros Hh Hz.
  assert (Hhost : String.eqb h "" = false) by (apply String.eqb_neq, Hh).
  assert (Hport : (z =? 0) = false) by (apply Z.eqb_neq, Hz).
  assert (Hskip : dns_skip w (Some h) (Some (Num z)) = false)
    by (unfold dns_skip; simpl; rewrite Hhost; reflexivity).
  assert (HtestHost : dns_testHost w (Some h) = h)
    by (unfold dns_testHost, or_opt; simpl; rewrite Hhost; simpl; rewrite Hhost;
        reflexivity).
  assert (HtestPort : dns_testPort w (Some (Num z)) = Num z)
    by (unfold dns_testPort; simpl; rewrite Hport; reflexivity).
  split; [exact Hskip|]. split; [exact HtestHost|]. split; [exact HtestPort|].
  pose proof (checkDNSPort_cases w (Some h) (Some (Num z))) as Hdns. cbn zeta in Hdns.
  rewrite HtestHost, HtestPort in Hdns.
  destruct Hdns as [(Hs & _)|[(_ & err & _ & _ & Hcalls)|(_ & events & Hnet & _)]].
  - congruence.
  - eexists. exact Hcalls.
  - unfold checkDNSPort. rewrite Hskip, HtestHost, HtestPort, Hnet.
    rewrite event_loop_racing_calls by (unfold racing; simpl; auto).
    eexists. reflexivity.
Qed.

Lemma checkDNSPort_explicit_target_witness :
  "10.1.2.3" ≠ "" ∧ 8443 ≠ 0
  ∧ dns_skip Scenarios.port_only (Some "10.1.2.3") (Some (Num 8443)) = false
  ∧ dns_testHost Scenarios.all_configured (Some "10.1.2.3") = "10.1.2.3"
  ∧ ∃ rest, net_calls (checkDNSPort Scenarios.all_configured
                         (Some "10.1.2.3") (Some (Num 8443)))
            = CreateConnection "10.1.2.3" (Num 8443) 5000 :: rest.
Proof.
  assert (Hh : "10.1.2.3" ≠ "") by discriminate.
  assert (Hz : 8443 ≠ 0) by lia.
  split; [exact Hh|]. split; [exact Hz|].
  split; [exact (proj1 (checkDNSPort_explicit_target Scenarios.port_only _ _ Hh Hz))|].
  destruct (checkDNSPort_explicit_target Scenarios.all_configured _ _ Hh Hz)
    as (_ & Hhost & _ & Hcalls).
  split; [exact Hhost|exact Hcalls].
Defined.

(** X15. An explicit port 0 counts as no port: the call behaves exactly
    like the call without a port, falling back to DNS_CHECK_PORT or 80, and
    with no host and nothing configured it is skipped. *)
Theorem checkDNSPort_port_zero_ignored w hostname :
  checkDNSPort w hostname (Some (Num 0)) = checkDNSPort w hostname None
  ∧ dns_testPort w (Some (Num 0)) = parseInt (or_else (env w !! "DNS_CHECK_PORT") "80")
  ∧ (every_field_absent Reachability w →
     promise (checkDNSPort w None (Some (Num 0))) = Fulfilled None).
Proof.
  assert (Hsame : checkDNSPort w hostname (Some (Num 0)) = checkDNSPort w hostname None)
    by reflexivity.
  split; [exact Hsame|]. split; [reflexivity|].
  intros Habsent.
  change (checkDNSPort w None (Some (Num 0))) with (checkDNSPort w None None).
  apply (proj1 (gate_skips_iff_skipped Reachability w)). exact Habsent.
Qed.

Lemma winner_success_iff testHost testPort events :
  status (winner testHost testPort events) = success
  ↔ first_callback events = SocketConnect.
Proof.
  induction events as [|ev events IH]; simpl.
  - split; discriminate.
  - destruct ev; simpl; try exact IH; split; try discriminate; reflexivity.
Qed.

(** X16. Every path of a started attempt releases what it holds, in a
    fixed order: after [createConnection] and [setTimeout(5000)], a connect
    or an error clears the timer and destroys the socket, the timer destroys
    the socket, and only then [resolve] is called, once.  The verdict is a
    success exactly when a connect is the first callback to run. *)
Theorem reachability_cleanup_and_verdict w hostname port events :
  dns_skip w hostname port = false →
  net_create_connection w (dns_testHost w hostname) (dns_testPort w port) 5000
    = Emits events →
  let testHost := dns_testHost w hostname in
  let testPort := dns_testPort w port in
  let r := winner testHost testPort events in
  promise (checkDNSPort w hostname port) = Fulfilled (Some r)
  ∧ net_calls (checkDNSPort w hostname port)
    = [CreateConnection testHost testPort 5000; SetTimeout 5000]
      ++ cleanup (first_callback events) ++ [Resolve r]
  ∧ (status r = success ↔ first_callback events = SocketConnect).
Proof.
  intros Hskip Hnet testHost testPort r. subst testHost testPort r.
  unfold checkDNSPort. rewrite Hskip. change timeout with 5000. rewrite Hnet.
  set (a0 := {| timer_armed := true; socket_destroyed := false;
                promise := Pending;
                net_calls := [CreateConnection (dns_testHost w hostname)
                                (dns_testPort w port) 5000; SetTimeout 5000] |}).
  assert (Ha0 : racing a0) by (unfold racing; simpl; auto).
  split; [|split].
  - apply (event_loop_racing _ _ events a0 Ha0).
  - apply (event_loop_racing_calls _ _ events a0 Ha0).
  - apply winner_success_iff.
Qed.

Lemma reachability_cleanup_and_verdict_witness :
  let w := Cases.net_refusing in
  let refused := SocketError "connect ECONNREFUSED 127.0.0.1:80" (Some "ECONNREFUSED") in
  dns_skip w (Some "localhost") None = false
  ∧ net_create_connection w (dns_testHost w (Some "localhost")) (dns_testPort w None) 5000
    = Emits [refused]
  ∧ net_calls (checkDNSPort w (Some "localhost") None)
    = [CreateConnection "localhost" (Num 80) 5000; SetTimeout 5000;
       ClearTimeout; SocketDestroy;
       Resolve (error_result "localhost" (Num 80)
                  "connect ECONNREFUSED 127.0.0.1:80" (Some "ECONNREFUSED"))].
Proof.
  intros w refused.
  assert (Hskip : dns_skip w (Some "localhost") None = false) by reflexivity.
  assert (Hnet : net_create_connection w (dns_testHost w (Some "localhost"))
                   (dns_testPort w None) 5000 = Emits [refused])
    by (vm_compute; reflexivity).
  split; [exact Hskip|]. split; [exact Hnet|].
  exact (proj1 (proj2 (reachability_cleanup_and_verdict w (Some "localhost") None
                         [refused] Hskip Hnet))).
Defined.

(** ** The earlier version of the probes *)

Ltac open_legacy :=
  unfold Legacy.checkDatabase, Legacy.checkDatabase_body,
    Legacy.checkS3, Legacy.checkS3_body, Legacy.checkSES, Legacy.checkSES_body.

Lemma legacy_checkDatabase_cases w :
  ∃ r, fst (Legacy.checkDatabase w) = Fulfilled r ∧ service r = "PostgreSQL Database".
Proof. open_legacy. run_body. split_matches; eexists; split; reflexivity. Qed.

Lemma legacy_checkS3_cases w :
  ∃ r, fst (Legacy.checkS3 w) = Fulfilled r ∧ service r = "AWS S3".
Proof. open_legacy. run_body. split_matches; eexists; split; reflexivity. Qed.

Lemma legacy_checkSES_cases w :
  ∃ r, fst (Legacy.checkSES w) = Fulfilled r ∧ service r = "AWS SES".
Proof. open_legacy. run_body. split_matches; eexists; split; reflexivity. Qed.

(** X17. The gates are the only difference between the two versions of the
    three async probes: a current probe whose gate is open returns the
    result of the earlier probe and makes the same calls. *)
Theorem gated_probe_runs_legacy_body w :
  (¬ gate_skips Database w →
   ∃ r res, Legacy.checkDatabase w = (Fulfilled r, res)
            ∧ checkDatabase w = (Fulfilled (Some r), res))
  ∧ (¬ gate_skips ObjectStore w →
     ∃ r res, Legacy.checkS3 w = (Fulfilled r, res)
              ∧ checkS3 w = (Fulfilled (Some r), res))
  ∧ (¬ gate_skips Email w →
     ∃ r res, Legacy.checkSES w = (Fulfilled r, res)
              ∧ checkSES w = (Fulfilled (Some r), res)).
Proof.
  split; [|split].
  - rewrite some_field_absent_Database_gate. intros Hgate.
    unfold checkDatabase, checkDatabase_body. open_legacy.
    destruct (_ || _); [contradiction Hgate; reflexivity|].
    run_body. split_matches; do 2 eexists; split; reflexivity.
  - unfold gate_skips.
    rewrite (some_field_absent_single ObjectStore "S3_BUCKET_NAME") by reflexivity.
    intros Hgate. unfold checkS3, checkS3_body. open_legacy.
    destruct (negb _); [contradiction Hgate; reflexivity|].
    run_body. split_matches; do 2 eexists; split; reflexivity.
  - unfold gate_skips.
    rewrite (some_field_absent_single Email "SES_FROM_EMAIL") by reflexivity.
    intros Hgate. unfold checkSES, checkSES_body. open_legacy.
    destruct (negb _); [contradiction Hgate; reflexivity|].
    run_body. split_matches; do 2 eexists; split; reflexivity.
Qed.

Lemma gated_probe_runs_legacy_body_witness :
  ¬ gate_skips Database Scenarios.db_query_fails
  ∧ ∃ r res, Legacy.checkDatabase Scenarios.db_query_fails = (Fulfilled r, res)
             ∧ checkDatabase Scenarios.db_query_fails = (Fulfilled (Some r), res).
Proof.
  assert (Hgate : ¬ gate_skips Database Scenarios.db_query_fails).
  { rewrite some_field_absent_Database_gate. vm_compute. discriminate. }
  split; [exact Hgate|].
  exact (proj1 (gated_probe_runs_legacy_body Scenarios.db_query_fails) Hgate).
Defined.

(** X18. The earlier batch never leaves a probe out: once its four probes
    have settled, in any order, it returns exactly four entries, named
    Application Port, PostgreSQL Database, AWS S3 and AWS SES in this
    order, whatever is configured. *)
Theorem legacy_batch_has_four_entries w completion :
  completion ≡ₚ seq 0 4 →
  ∃ checks,
    Legacy.runAllHealthChecks w completion = Fulfilled checks
    ∧ service <$> checks = Legacy.services
    ∧ length checks = 4%nat.
Proof.
  intros Hperm.
  destruct (legacy_checkDatabase_cases w) as (r1 & H1 & N1).
  destruct (legacy_checkS3_cases w) as (r2 & H2 & N2).
  destruct (legacy_checkSES_cases w) as (r3 & H3 & N3).
  unfold Legacy.runAllHealthChecks.
  rewrite (allSettled_complete completion (Legacy.probes w)
             [PromiseFulfilledResult (Legacy.checkPort w); PromiseFulfilledResult r1;
              PromiseFulfilledResult r2; PromiseFulfilledResult r3]).
  - eexists. split; [reflexivity|]. simpl. rewrite N1, N2, N3. split; reflexivity.
  - apply covers_declaration_order, Hperm.
  - unfold Legacy.probes. rewrite H1, H2, H3. reflexivity.
Qed.

Lemma legacy_batch_has_four_entries_witness :
  [3; 0; 2; 1]%nat ≡ₚ seq 0 4
  ∧ ∃ checks,
      Legacy.runAllHealthChecks Scenarios.port_only [3; 0; 2; 1]%nat = Fulfilled checks
      ∧ service <$> checks = Legacy.services
      ∧ length checks = 4%nat.
Proof.
  assert (Hperm : [3; 0; 2; 1]%nat ≡ₚ seq 0 4)
    by (refine (bool_decide_unpack _ _); vm_compute; exact I).
  split; [exact Hperm|].
  exact (legacy_batch_has_four_entries Scenarios.port_only _ Hperm).
Defined.

Lemma require_set_absent v msg :
  truthy v = false → require_set v msg = throw (ErrorObj msg None).
Proof.
  destruct v as [x|]; simpl; [|reflexivity].
  destruct (String.eqb x ""); [reflexivity|discriminate].
Qed.

(** X19. Where the current probes skip, the earlier ones reported a
    failure: without S3_BUCKET_NAME (or SES_FROM_EMAIL) the earlier probe
    creates its client, sends nothing, and returns the error "... environment
    variable is not set"; the current probe returns [null] and creates
    nothing. *)
Theorem legacy_reports_unset_variable w :
  (is_absent (env w) "S3_BUCKET_NAME" →
   Legacy.checkS3 w =
     (Fulfilled {|
        service := "AWS S3";
        status := error;
        message := "S3 access failed: S3_BUCKET_NAME environment variable is not set";
        details := Some [("accessible", JBool false);
                         ("issue", JStr "Access denied or bucket not found")] |},
      {| pg_conn := NotConnected;
         calls := [NewS3Client (or_else (env w !! "AWS_REGION") "us-east-1")] |})
   ∧ checkS3 w = (Fulfilled None, idle))
  ∧ (is_absent (env w) "SES_FROM_EMAIL" →
     Legacy.checkSES w =
       (Fulfilled {|
          service := "AWS SES";
          status := error;
          message := "SES access failed: SES_FROM_EMAIL environment variable is not set";
          details := Some [("accessible", JBool false);
                           ("issue", JStr "Access denied or email not verified")] |},
        {| pg_conn := NotConnected;
           calls := [NewSESClient (or_else (env w !! "AWS_REGION") "us-east-1")] |})
     ∧ checkSES w = (Fulfilled None, idle)).
Proof.
  unfold is_absent. split; intros Habsent; split.
  - open_legacy. rewrite (require_set_absent _ _ Habsent). reflexivity.
  - unfold checkS3, checkS3_body. rewrite Habsent. reflexivity.
  - open_legacy. rewrite (require_set_absent _ _ Habsent). reflexivity.
  - unfold checkSES, checkSES_body. rewrite Habsent. reflexivity.
Qed.

Lemma legacy_reports_unset_variable_witness :
  is_absent (env Scenarios.port_only) "S3_BUCKET_NAME"
  ∧ (∃ r, fst (Legacy.checkS3 Scenarios.port_only) = Fulfilled r ∧ status r = error)
  ∧ checkS3 Scenarios.port_only = (Fulfilled None, idle).
Proof.
  assert (Habsent : is_absent (env Scenarios.port_only) "S3_BUCKET_NAME")
    by (vm_compute; reflexivity).
  split; [exact Habsent|].
  destruct (proj1 (legacy_reports_unset_variable Scenarios.port_only) Habsent)
    as [Hold Hnew].
  split; [|exact Hnew]. rewrite Hold. eexists. split; reflexivity.
Defined.

(** ** The dashboard *)

(** X20. [getStatusColor] and [getStatusIcon] put every status string in
    the same class: green with the check mark, red with the cross, yellow
    with the warning sign.  The overall status of a report GET builds from
    the orchestrator's list and the status of each of its checks are never
    in the yellow fallback class, and the overall status is in the green
    class exactly when the HTTP status is 200. *)
Theorem status_badges_agree w completion now checks :
  runAllHealthChecks w completion = Fulfilled checks →
  (∀ st,
     (Dashboard.getStatusColor st = "text-green-600 bg-green-50 border-green-200"
      ↔ Dashboard.getStatusIcon st = "✅")
     ∧ (Dashboard.getStatusColor st = "text-red-600 bg-red-50 border-red-200"
        ↔ Dashboard.getStatusIcon st = "❌")
     ∧ (Dashboard.getStatusColor st = "text-yellow-600 bg-yellow-50 border-yellow-200"
        ↔ Dashboard.getStatusIcon st = "⚠️"))
  ∧ (∃ response st,
       GET w completion now = Fulfilled response
       ∧ get_field "status" (fields_of (body response)) = Some (JStr st)
       ∧ Dashboard.getStatusColor st ≠ "text-yellow-600 bg-yellow-50 border-yellow-200"
       ∧ Dashboard.getStatusIcon st ≠ "⚠️"
       ∧ (Dashboard.getStatusColor st = "text-green-600 bg-green-50 border-green-200"
          ↔ http_status response = 200))
  ∧ Forall (λ r,
       (status r = success
        ∧ Dashboard.getStatusColor (status_string (status r))
          = "text-green-600 bg-green-50 border-green-200")
       ∨ (status r = error
          ∧ Dashboard.getStatusColor (status_string (status r))
            = "text-red-600 bg-red-50 border-red-200")) checks.
Proof.
  intros Hrun. split; [|split].
  - intros st. unfold Dashboard.getStatusColor, Dashboard.getStatusIcon.
    destruct (String.eqb st "success" || String.eqb st "healthy");
      [repeat split; intros H; first [reflexivity | discriminate H]|].
    destruct (String.eqb st "error" || String.eqb st "unhealthy");
      repeat split; intros H; first [reflexivity | discriminate H].
  - unfold GET. rewrite Hrun. unfold GET_report.
    destruct (existsb (has_status error) checks);
      do 2 eexists; (split; [reflexivity|]); (split; [reflexivity|]); simpl;
      (split; [discriminate|]); (split; [discriminate|]);
      split; intros H; first [reflexivity | discriminate H].
  - apply Forall_forall. intros r _.
    destruct (status r); [left|right]; split; reflexivity.
Qed.

Lemma status_badges_agree_witness :
  ∃ checks,
    runAllHealthChecks Scenarios.db_unreachable declaration_order = Fulfilled checks
    ∧ ∃ response st,
        GET Scenarios.db_unreachable declaration_order "T" = Fulfilled response
        ∧ get_field "status" (fields_of (body response)) = Some (JStr st)
        ∧ Dashboard.getStatusColor st ≠ "text-yellow-600 bg-yellow-50 border-yellow-200"
        ∧ Dashboard.getStatusIcon st ≠ "⚠️"
        ∧ (Dashboard.getStatusColor st = "text-green-600 bg-green-50 border-green-200"
           ↔ http_status response = 200).
Proof.
  eexists. split; [vm_compute; reflexivity|].
  refine (proj1 (proj2 (status_badges_agree Scenarios.db_unreachable
                          declaration_order "T" _ _))).
  vm_compute. reflexivity.
Defined.

(** ** More on the reachability probe and the orchestrator's fallback *)

(** X21. A target that never answers ends in the timeout error after the
    5000 ms timer, and a refused connection ends in the error result that
    names the error code, or "Unknown error" when the error has no code;
    events that come later change nothing. *)
Theorem reachability_failure_results w hostname port events :
  dns_skip w hostname port = false →
  net_create_connection w (dns_testHost w hostname) (dns_testPort w port) 5000
    = Emits events →
  let testHost := dns_testHost w hostname in
  let testPort := dns_testPort w port in
  (Forall (λ ev, ev = SocketTimeout) events →
   promise (checkDNSPort w hostname port)
   = Fulfilled (Some (timeout_result testHost testPort))
   ∧ get_field "timeout" (default [] (details (timeout_result testHost testPort)))
     = Some (JStr "5000ms"))
  ∧ (∀ m c later, events = SocketError m c :: later →
     ∃ r, promise (checkDNSPort w hostname port) = Fulfilled (Some r)
          ∧ status r = error
          ∧ message r = "Failed to connect to " +:+ testHost +:+ ":"
                        +:+ show_number testPort +:+ ": " +:+ m
          ∧ get_field "error" (default [] (details r))
            = Some (JStr (if truthy c then default "" c else "Unknown error"))).
Proof.
  intros Hskip Hnet testHost testPort.
  assert (Hpromise : promise (checkDNSPort w hostname port)
                     = Fulfilled (Some (winner testHost testPort events))).
  { subst testHost testPort.
    unfold checkDNSPort. rewrite Hskip. change timeout with 5000. rewrite Hnet.
    apply (event_loop_racing _ _ events).
    unfold racing. simpl. auto. }
  rewrite Hpromise. split.
  - intros Hsilent. split; [|reflexivity].
    do 2 f_equal. clear Hnet Hpromise.
    induction Hsilent as [|ev events -> _ IH]; [reflexivity|exact IH].
  - intros m c later ->. eexists. split; [reflexivity|]. simpl.
    split; [reflexivity|]. split; [reflexivity|].
    destruct c as [code|]; simpl; [|reflexivity].
    destruct (String.eqb code ""); reflexivity.
Qed.

Lemma reachability_failure_results_witness :
  let w := Cases.net_refusing in
  dns_skip w (Some "localhost") None = false
  ∧ net_create_connection w (dns_testHost w (Some "localhost")) (dns_testPort w None) 5000
    = Emits [SocketError "connect ECONNREFUSED 127.0.0.1:80" (Some "ECONNREFUSED")]
  ∧ ∃ r, promise (checkDNSPort w (Some "localhost") None) = Fulfilled (Some r)
         ∧ status r = error
         ∧ message r = "Failed to connect to localhost:80: connect ECONNREFUSED 127.0.0.1:80"
         ∧ get_field "error" (default [] (details r)) = Some (JStr "ECONNREFUSED").
Proof.
  intros w.
  assert (Hskip : dns_skip w (Some "localhost") None = false) by reflexivity.
  assert (Hnet : net_create_connection w (dns_testHost w (Some "localhost"))
                   (dns_testPort w None) 5000
                 = Emits [SocketError "connect ECONNREFUSED 127.0.0.1:80"
                            (Some "ECONNREFUSED")])
    by (vm_compute; reflexivity).
  split; [exact Hskip|]. split; [exact Hnet|].
  exact (proj2 (reachability_failure_results w (Some "localhost") None _ Hskip Hnet)
           _ _ [] eq_refl).
Defined.

(** X22. The orchestrator's fallback can only be reached through the
    reachability probe: if one of the five promises of a batch rejects, it
    is the fifth, the probe was not skipped, and the reason is what
    [createConnection] threw; so an entry made by the fallback is always
    named DNS/Port Connectivity. *)
Theorem only_reachability_can_reject w i reason :
  probes w !! i = Some (Rejected reason) →
  i = 4%nat
  ∧ dns_skip w None None = false
  ∧ net_create_connection w (dns_testHost w None) (dns_testPort w None) 5000
    = ThrowsSync reason
  ∧ service (rejected_result i reason) = "DNS/Port Connectivity".
Proof.
  unfold probes.
  destruct (checkDatabase_cases w) as [->|(? & -> & _)];
  destruct (checkS3_cases w) as [->|(? & -> & _)];
  destruct (checkSES_cases w) as [->|(? & -> & _)];
  pose proof (checkDNSPort_cases w None None) as Hdns; cbn zeta in Hdns.
  all: change timeout with 5000 in Hdns.
  all: destruct i as [|[|[|[|[|i]]]]]; simpl; intros Hi; try discriminate.
  all: destruct Hdns as [(_ & Hp & _)|[(Hs & err & Hnet & Hp & _)|(_ & ev & _ & _ & _ & Hp & _)]];
    rewrite Hp in Hi; try discriminate.
  all: injection Hi as <-; repeat split; assumption.
Qed.

Lemma only_reachability_can_reject_witness :
  let reason := ErrorObj "Port should be >= 0 and < 65536." (Some "ERR_SOCKET_BAD_PORT") in
  probes Scenarios.dns_bad_port !! 4%nat = Some (Rejected reason)
  ∧ dns_skip Scenarios.dns_bad_port None None = false
  ∧ service (rejected_result 4 reason) = "DNS/Port Connectivity".
Proof.
  intros reason.
  assert (Hi : probes Scenarios.dns_bad_port !! 4%nat = Some (Rejected reason))
    by (vm_compute; reflexivity).
  split; [exact Hi|].
  destruct (only_reachability_can_reject Scenarios.dns_bad_port 4 reason Hi)
    as (_ & Hskip & _ & Hname).
  split; [exact Hskip|exact Hname].
Defined.

(** ** The gates, with the reachability target *)

Lemma dns_skip_iff w hostname port :
  dns_skip w hostname port = true
  ↔ truthy hostname = false ∧ truthy_num port = false
    ∧ every_field_absent Reachability w.
Proof.
  rewrite every_field_absent_Reachability. unfold dns_skip.
  destruct (truthy hostname), (truthy_num port); simpl;
    try (split; [discriminate|intros (? & ? & ?); discriminate]).
  split; [intros H; repeat split; exact H|intros (_ & _ & H); exact H].
Qed.

(** A call that is not skipped starts with [createConnection] on the
    resolved target. *)
Lemma checkDNSPort_first_call w hostname port :
  dns_skip w hostname port = false →
  ∃ rest,
    net_calls (checkDNSPort w hostname port)
    = CreateConnection (dns_testHost w hostname) (dns_testPort w port) timeout :: rest.
Proof.
  intros Hskip. unfold checkDNSPort. rewrite Hskip.
  destruct (net_create_connection w _ _ timeout) as [err|events].
  - eexists. reflexivity.
  - rewrite event_loop_racing_calls by (unfold racing; simpl; auto).
    eexists. reflexivity.
Qed.

Lemma checkDNSPort_skipped_iff w hostname port :
  (promise (checkDNSPort w hostname port) = Fulfilled None
   ∧ net_calls (checkDNSPort w hostname port) = [])
  ↔ dns_skip w hostname port = true.
Proof.
  pose proof (checkDNSPort_cases w hostname port) as Hdns. cbn zeta in Hdns.
  destruct Hdns as [(Hs & Hp & Hc)|[(Hs & err & _ & Hp & _)|(Hs & events & _ & _ & _ & Hp & _)]];
    rewrite Hs, Hp.
  - split; auto.
  - split; [intros [? _]|]; discriminate.
  - split; [intros [? _]|]; discriminate.
Qed.

(** C3, as the code has it. A database probe with one of DB_HOST, DB_NAME,
    DB_USERNAME, DB_PASSWORD absent, an object-store probe without
    S3_BUCKET_NAME and an email probe without SES_FROM_EMAIL are skipped
    entirely: nothing is called and no entry appears under their name; for
    each probe the gate is the only way to be skipped.  The reachability
    probe is skipped exactly when DNS_CHECK_HOST and DNS_CHECK_PORT are
    both absent and no host or port is given at the call.  Otherwise it
    runs, and connects to the host given at the call, else DNS_CHECK_HOST,
    else google.com, on the port given at the call, else DNS_CHECK_PORT,
    else 80: with only the host configured it uses port 80, with only the
    port configured it uses google.com. *)
Theorem gates_decide_skipping p w :
  (gate_skips p w ↔ probe_skipped p w)
  ∧ (gate_skips p w →
     ∀ completion checks,
       runAllHealthChecks w completion = Fulfilled checks →
       probe_name p ∉ service <$> checks)
  ∧ (∀ hostname port,
       (promise (checkDNSPort w hostname port) = Fulfilled None
        ∧ net_calls (checkDNSPort w hostname port) = [])
       ↔ (truthy hostname = false ∧ truthy_num port = false
          ∧ every_field_absent Reachability w))
  ∧ (∀ hostname port,
       ¬ (truthy hostname = false ∧ truthy_num port = false
          ∧ every_field_absent Reachability w) →
       ∃ rest,
         net_calls (checkDNSPort w hostname port)
         = CreateConnection
             (or_else (or_opt hostname (env w !! "DNS_CHECK_HOST")) "google.com")
             (or_num port (parseInt (or_else (env w !! "DNS_CHECK_PORT") "80")))
             5000 :: rest)
  ∧ (∀ configured_host,
       env w !! "DNS_CHECK_HOST" = Some configured_host → configured_host ≠ "" →
       is_absent (env w) "DNS_CHECK_PORT" →
       ∃ rest,
         net_calls (checkDNSPort w None None)
         = CreateConnection configured_host (Num 80) 5000 :: rest)
  ∧ (∀ configured_port,
       is_absent (env w) "DNS_CHECK_HOST" →
       env w !! "DNS_CHECK_PORT" = Some configured_port → configured_port ≠ "" →
       ∃ rest,
         net_calls (checkDNSPort w None None)
         = CreateConnection "google.com" (parseInt configured_port) 5000 :: rest).
Proof.
  assert (Hfirst : ∀ hostname port,
    ¬ (truthy hostname = false ∧ truthy_num port = false
       ∧ every_field_absent Reachability w) →
    ∃ rest,
      net_calls (checkDNSPort w hostname port)
      = CreateConnection
          (or_else (or_opt hostname (env w !! "DNS_CHECK_HOST")) "google.com")
          (or_num port (parseInt (or_else (env w !! "DNS_CHECK_PORT") "80")))
          5000 :: rest).
  { intros hostname port Hrun. apply checkDNSPort_first_call.
    destruct (dns_skip w hostname port) eqn:Hskip; [|reflexivity].
    contradiction Hrun. apply dns_skip_iff, Hskip. }
  split; [apply gate_skips_iff_skipped|]. split; [|split; [|split; [|split]]].
  - intros Hgate completion checks Hrun.
    eapply skipped_not_reported; [|exact Hrun].
    apply gate_skips_iff_skipped, Hgate.
  - intros hostname port. rewrite checkDNSPort_skipped_iff. apply dns_skip_iff.
  - exact Hfirst.
  - intros configured_host Hhost Hne Hport.
    assert (Hset : String.eqb configured_host "" = false) by (apply String.eqb_neq, Hne).
    destruct (Hfirst None None) as [rest Hcalls].
    { intros (_ & _ & Habsent).
      specialize (Habsent "DNS_CHECK_HOST" ltac:(repeat constructor)).
      unfold is_absent in Habsent. rewrite Hhost in Habsent. simpl in Habsent.
      rewrite Hset in Habsent. discriminate. }
    exists rest. rewrite Hcalls. unfold or_opt. simpl.
    rewrite Hhost. simpl. rewrite Hset.
    rewrite (or_else_absent _ "80" Hport). reflexivity.
  - intros configured_port Hhost Hport Hne.
    assert (Hset : String.eqb configured_port "" = false) by (apply String.eqb_neq, Hne).
    destruct (Hfirst None None) as [rest Hcalls].
    { intros (_ & _ & Habsent).
      specialize (Habsent "DNS_CHECK_PORT" ltac:(repeat constructor)).
      unfold is_absent in Habsent. rewrite Hport in Habsent. simpl in Habsent.
      rewrite Hset in Habsent. discriminate. }
    exists rest. rewrite Hcalls. unfold or_opt. simpl.
    unfold is_absent in Hhost. rewrite (or_else_absent _ "google.com" Hhost).
    rewrite Hport. simpl. rewrite Hset. reflexivity.
Qed.

Lemma gates_decide_skipping_witness :
  gate_skips Database Scenarios.db_partial
  ∧ probe_skipped Database Scenarios.db_partial
  ∧ runAllHealthChecks Scenarios.db_partial declaration_order
    = Fulfilled [checkPort Scenarios.db_partial]
  ∧ (probe_name Database ∉ service <$> [checkPort Scenarios.db_partial])
  ∧ env Scenarios.dns_host_only !! "DNS_CHECK_HOST" = Some "example.com"
  ∧ "example.com" ≠ ""
  ∧ is_absent (env Scenarios.dns_host_only) "DNS_CHECK_PORT"
  ∧ ∃ rest,
      net_calls (checkDNSPort Scenarios.dns_host_only None None)
      = CreateConnection "example.com" (Num 80) 5000 :: rest.
Proof.
  assert (Hgate : gate_skips Database Scenarios.db_partial).
  { exists "DB_PASSWORD". split; [|vm_compute; reflexivity].
    repeat first [apply list_elem_of_here | apply list_elem_of_further]. }
  assert (Hrun : runAllHealthChecks Scenarios.db_partial declaration_order
                 = Fulfilled [checkPort Scenarios.db_partial])
    by (vm_compute; reflexivity).
  assert (Hhost : env Scenarios.dns_host_only !! "DNS_CHECK_HOST" = Some "example.com")
    by (vm_compute; reflexivity).
  assert (Hne : "example.com" ≠ "") by discriminate.
  assert (Hport : is_absent (env Scenarios.dns_host_only) "DNS_CHECK_PORT")
    by (vm_compute; reflexivity).
  split; [exact Hgate|]. split.
  { apply (proj1 (gates_decide_skipping Database Scenarios.db_partial)), Hgate. }
  split; [exact Hrun|]. split.
  { exact (proj1 (proj2 (gates_decide_skipping Database Scenarios.db_partial)) Hgate
             declaration_order _ Hrun). }
  split; [exact Hhost|]. split; [exact Hne|]. split; [exact Hport|].
  exact (proj1 (proj2 (proj2 (proj2 (proj2
           (gates_decide_skipping Reachability Scenarios.dns_host_only)))))
           "example.com" Hhost Hne Hport).
Defined.
